(** * The record search pipeline of the LMDB explorer

    A shallow embedding of the search handler of [src/index.ts]
    (route [/api/databases/:dbName/search]): the filter closure, the two
    sort closures, the construction of the options object handed to the
    search library, the loop over the sub-databases and the final slice.

    The handler is written in TypeScript, so the first part of the file is
    a model of the fragment of the language runtime the handler touches:
    strings, numbers, [typeof], [String(...)], [Number(...)], property
    reads with what a value inherits from its prototype.  The second part
    follows the handler line by line. *)

From Stdlib Require Import ZArith List String Ascii Bool Lia.
From Stdlib Require Import DecimalString.
From Stdlib Require Import Floats.SpecFloat.
Import ListNotations.

Local Open Scope string_scope.
Local Open Scope Z_scope.

(** ** Strings

    A string is a sequence of code units; the model keeps the code units
    0..255 (the Latin-1 range), which is what [ascii] holds. *)

Module JsString.

Definition code (c : ascii) : N := N_of_ascii c.

(** White space and line terminators of the Latin-1 range: TAB, LF, VT,
    FF, CR, SP and NBSP. *)
Definition isWhiteSpace (c : ascii) : bool :=
  let n := code c in
  (((9 <=? n) && (n <=? 13)) || (n =? 32) || (n =? 160))%N.

Fixpoint trimStart (s : string) : string :=
  match s with
  | String c r => if isWhiteSpace c then trimStart r else s
  | EmptyString => EmptyString
  end.

Fixpoint trimEnd (s : string) : string :=
  match s with
  | String c r =>
      let r' := trimEnd r in
      if isWhiteSpace c && (r' =? "")%string then EmptyString
      else String c r'
  | EmptyString => EmptyString
  end.

(** [s.trim()] *)
Definition trim (s : string) : string := trimEnd (trimStart s).

(** Lower-case mapping of one code unit: A..Z and the capital letters
    of Latin-1 (U+00C0..U+00DE without the multiplication sign U+00D7)
    move up by 32; everything else is left alone. *)
Definition lowerChar (c : ascii) : ascii :=
  let n := code c in
  if (((65 <=? n) && (n <=? 90))
      || ((192 <=? n) && (n <=? 222) && negb (n =? 215)))%N
  then ascii_of_N (n + 32) else c.

(** [s.toLowerCase()] *)
Fixpoint toLowerCase (s : string) : string :=
  match s with
  | String c r => String (lowerChar c) (toLowerCase r)
  | EmptyString => EmptyString
  end.

(** The relational operators on two strings compare code units from
    the left ([String.compare]). *)
Definition lt (a b : string) : bool := String.ltb a b.
Definition gt (a b : string) : bool := String.ltb b a.
Definition le (a b : string) : bool := negb (String.ltb b a).
Definition ge (a b : string) : bool := negb (String.ltb a b).

(** Truthiness of a string: [""] is the only falsy one. *)
Definition truthy (s : string) : bool := negb (s =? "")%string.

(** [a || b] on strings, and on a value that may be [null] (what
    [URLSearchParams.get] returns for an absent parameter). *)
Definition or_else (a b : string) : string := if truthy a then a else b.

Definition or_default (a : option string) (b : string) : string :=
  match a with
  | Some s => or_else s b
  | None => b
  end.

End JsString.

(** ** Numbers

    Numbers are IEEE 754 binary64 values: the standard library's
    [spec_float] at precision 53 and maximal exponent 1024. *)

Module JsNumber.

Definition number : Type := spec_float.

Definition prec : Z := 53.
Definition emax : Z := 1024.

Definition NaN : number := S754_nan.
Definition Infinity : number := S754_infinity false.
Definition zero : number := S754_zero false.

Definition isNaN (x : number) : bool :=
  match x with
  | S754_nan => true
  | _ => false
  end.

(** [x === y], [x !== y], [x < y], [x > y], [x <= y], [x >= y] on two
    numbers; every comparison with NaN is false, except [!==]. *)
Definition eq (x y : number) : bool := SFeqb x y.
Definition neq (x y : number) : bool := negb (SFeqb x y).
Definition lt (x y : number) : bool := SFltb x y.
Definition gt (x y : number) : bool := SFltb y x.
Definition le (x y : number) : bool := SFleb x y.
Definition ge (x y : number) : bool := SFleb y x.

(** [x - y] *)
Definition sub (x y : number) : number := SFsub prec emax x y.

(** [x * y] *)
Definition mul (x y : number) : number := SFmul prec emax x y.

(** The number nearest to an integer. *)
Definition of_Z (z : Z) : number := binary_normalize prec emax z 0 false.

(** The number nearest to [m * 10^e] for [m >= 0], with the sign
    [neg]: an exact integer is rounded once, a proper fraction is the
    correctly rounded quotient of two exact integers. *)
Definition of_decimal (neg : bool) (m e : Z) : number :=
  match m with
  | Zpos p =>
      if 0 <=? e
      then binary_normalize prec emax
             (if neg then - (m * 10 ^ e) else m * 10 ^ e) 0 false
      else SFdiv prec emax (S754_finite neg p 0)
             (S754_finite false (Z.to_pos (10 ^ (- e))) 0)
  | _ => S754_zero neg
  end.

(** *** [Number(s)] on a string

    The grammar of numeric string literals: optional white space around
    a signed decimal literal (digits, optional fraction, optional
    exponent, or [Infinity]) or an unsigned [0x], [0o] or [0b] integer;
    the empty literal is [+0] and anything else is NaN. *)

Definition digit_val (c : ascii) : option Z :=
  let n := JsString.code c in
  if ((48 <=? n) && (n <=? 57))%N then Some (Z.of_N n - 48) else None.

Definition hex_val (c : ascii) : option Z :=
  let n := JsString.code c in
  if ((48 <=? n) && (n <=? 57))%N then Some (Z.of_N n - 48)
  else if ((97 <=? n) && (n <=? 102))%N then Some (Z.of_N n - 87)
  else if ((65 <=? n) && (n <=? 70))%N then Some (Z.of_N n - 55)
  else None.

Definition below (radix : Z) (f : ascii -> option Z) (c : ascii) : option Z :=
  match f c with
  | Some d => if d <? radix then Some d else None
  | None => None
  end.

(** Reads the longest run of digits at the head of [s]: the value read
    (continuing from [v]), the number of digits, and the rest. *)
Fixpoint digits_acc (val : ascii -> option Z) (radix : Z)
    (s : string) (v : Z) (n : nat) : Z * nat * string :=
  match s with
  | String c r =>
      match val c with
      | Some d => digits_acc val radix r (radix * v + d) (S n)
      | None => (v, n, s)
      end
  | EmptyString => (v, n, s)
  end.

Definition parse_radix (val : ascii -> option Z) (radix : Z) (s : string)
    : number :=
  let '(v, n, rest) := digits_acc val radix s 0 0%nat in
  if (0 <? n)%nat && (rest =? "")%string then of_Z v else NaN.

Definition parse_exponent (s : string) : option Z :=
  match s with
  | EmptyString => Some 0
  | String c r =>
      if (c =? "e")%char || (c =? "E")%char then
        let '(neg, r') :=
          match r with
          | String d t =>
              if (d =? "+")%char then (false, t)
              else if (d =? "-")%char then (true, t)
              else (false, r)
          | EmptyString => (false, r)
          end in
        let '(v, n, rest) := digits_acc digit_val 10 r' 0 0%nat in
        if (0 <? n)%nat && (rest =? "")%string
        then Some (if neg then - v else v) else None
      else None
  end.

Definition parse_unsigned (neg : bool) (s : string) : number :=
  if (s =? "Infinity")%string then S754_infinity neg
  else
    let '(i, ni, r1) := digits_acc digit_val 10 s 0 0%nat in
    let '(m, nf, r2) :=
      match r1 with
      | String c r =>
          if (c =? ".")%char then digits_acc digit_val 10 r i 0%nat
          else (i, 0%nat, r1)
      | EmptyString => (i, 0%nat, r1)
      end in
    if (ni + nf =? 0)%nat then NaN
    else match parse_exponent r2 with
         | Some e => of_decimal neg m (e - Z.of_nat nf)
         | None => NaN
         end.

Definition StringToNumber (s : string) : number :=
  let t := JsString.trim s in
  match t with
  | EmptyString => zero
  | String c r =>
      if (c =? "+")%char then parse_unsigned false r
      else if (c =? "-")%char then parse_unsigned true r
      else
        match r with
        | String x r' =>
            if (c =? "0")%char && ((x =? "x")%char || (x =? "X")%char)
            then parse_radix hex_val 16 r'
            else if (c =? "0")%char && ((x =? "o")%char || (x =? "O")%char)
            then parse_radix (below 8 digit_val) 8 r'
            else if (c =? "0")%char && ((x =? "b")%char || (x =? "B")%char)
            then parse_radix (below 2 digit_val) 2 r'
            else parse_unsigned false t
        | EmptyString => parse_unsigned false t
        end
  end.

(** *** [parseInt(s)] without a radix

    Leading white space is skipped, a sign is read, [0x] switches to
    radix 16, and the longest run of digits is the value; no digit at
    all is NaN.  Whatever follows the digits is ignored. *)
Definition parseInt (s : string) : number :=
  let s0 := JsString.trimStart s in
  let '(neg, s1) :=
    match s0 with
    | String c r =>
        if (c =? "-")%char then (true, r)
        else if (c =? "+")%char then (false, r)
        else (false, s0)
    | EmptyString => (false, s0)
    end in
  let '(v, n, _) :=
    match s1 with
    | String c (String x r) =>
        if (c =? "0")%char && ((x =? "x")%char || (x =? "X")%char)
        then digits_acc hex_val 16 r 0 0%nat
        else digits_acc digit_val 10 s1 0 0%nat
    | _ => digits_acc digit_val 10 s1 0 0%nat
    end in
  if (n =? 0)%nat then NaN
  else if v =? 0 then S754_zero neg
  else of_Z (if neg then - v else v).

(** *** Integer conversion of an index argument

    NaN counts as 0, a fraction is truncated towards zero, the
    infinities stay. *)
Inductive IntegerOrInfinity : Type :=
| NegInfinity
| Integer (z : Z)
| PosInfinity.

Definition ToIntegerOrInfinity (x : number) : IntegerOrInfinity :=
  match x with
  | S754_nan | S754_zero _ => Integer 0
  | S754_infinity s => if s then NegInfinity else PosInfinity
  | S754_finite s m e =>
      let t := Z.shiftl (Zpos m) e in
      Integer (if s then - t else t)
  end.

(** *** [String(x)] on a number

    The digits are the shortest decimal [s * 10^(n-k)], [s] of [k]
    digits, that reads back as [x] (the closest one when several do);
    they are laid out plainly for [-6 < n <= 21] and in exponent
    notation otherwise. *)

Definition digits_of (z : Z) : string :=
  NilZero.string_of_uint (N.to_uint (Z.to_N z)).

Definition ndigits (z : Z) : Z := Z.of_nat (String.length (digits_of z)).

(** The [n] with [10^(n-1) <= num/den < 10^n], for [num, den > 0]. *)
Definition dec_exponent (num den : Z) : Z :=
  if den <=? num then ndigits (num / den)
  else
    let d := ndigits den - ndigits num in
    if den <=? num * 10 ^ d then 1 - d else - d.

Definition same_finite (x y : number) : bool :=
  match x, y with
  | S754_finite sx mx ex, S754_finite sy my ey =>
      Bool.eqb sx sy && (mx =? my)%positive && (ex =? ey)
  | _, _ => false
  end.

(** The [k]-digit decimals [s * 10^(n-k)] next to [num/den] that read
    back as [x], the closer one first. *)
Definition candidates (x : number) (num den k n : Z) : list Z :=
  let p := n - k in
  let '(a, b) := if 0 <=? p then (num, den * 10 ^ p)
                 else (num * 10 ^ (- p), den) in
  let lo := a / b in
  let ok s := (10 ^ (k - 1) <=? s) && (s <? 10 ^ k)
              && same_finite (of_decimal false s p) x in
  let lo_first :=
    match 2 * a ?= (2 * lo + 1) * b with
    | Lt => true
    | Eq => Z.even lo
    | Gt => false
    end in
  List.filter ok (if lo_first then [lo; lo + 1] else [lo + 1; lo]).

Fixpoint shortest (fuel : nat) (x : number) (num den n0 k : Z)
    : option (Z * Z * Z) :=
  match fuel with
  | O => None
  | S fuel' =>
      match candidates x num den k n0, candidates x num den k (n0 + 1) with
      | s :: _, _ => Some (s, k, n0)
      | [], s :: _ => Some (s, k, n0 + 1)
      | [], [] => shortest fuel' x num den n0 (k + 1)
      end
  end.

Definition zeros (n : Z) : string :=
  String.concat "" (List.repeat "0" (Z.to_nat n)).

Definition layout (ds : string) (k n : Z) : string :=
  if (k <=? n) && (n <=? 21) then ds ++ zeros (n - k)
  else if (0 <? n) && (n <=? 21) then
    substring 0 (Z.to_nat n) ds ++ "." ++
    substring (Z.to_nat n) (Z.to_nat (k - n)) ds
  else if (-6 <? n) && (n <=? 0) then "0." ++ zeros (- n) ++ ds
  else
    let e := n - 1 in
    let es := (if e <? 0 then "-" else "+") ++ digits_of (Z.abs e) in
    if k =? 1 then ds ++ "e" ++ es
    else substring 0 1 ds ++ "." ++ substring 1 (Z.to_nat (k - 1)) ds
         ++ "e" ++ es.

Definition toString_pos (m : positive) (e : Z) : string :=
  match binary_normalize prec emax (Zpos m) e false with
  | S754_finite _ m' e' =>
      let x := S754_finite false m' e' in
      let '(num, den) := if 0 <=? e' then (Zpos m' * 2 ^ e', 1)
                         else (Zpos m', 2 ^ (- e')) in
      match shortest 17 x num den (dec_exponent num den) 1 with
      | Some (s, k, n) => layout (digits_of s) k n
      | None => "NaN"
      end
  | S754_infinity _ => "Infinity"
  | S754_zero _ => "0"
  | S754_nan => "NaN"
  end.

Definition toString (x : number) : string :=
  match x with
  | S754_nan => "NaN"
  | S754_zero _ => "0"
  | S754_infinity s => if s then "-Infinity" else "Infinity"
  | S754_finite s m e =>
      (if s then "-" else "") ++ toString_pos m e
  end.

End JsNumber.

(** ** Errors and exceptions

    A thrown value is an error object: its [name], its [message] and,
    for the errors of the storage binding, a numeric [code].  A
    computation either returns or throws. *)

Record JsError : Type := mkError {
  err_name : string;
  err_message : string;
  err_code : option Z
}.

Inductive Exc (A : Type) : Type :=
| Ok (a : A)
| Throw (e : JsError).

Arguments Ok {A} a.
Arguments Throw {A} e.

Definition bind {A B : Type} (c : Exc A) (k : A -> Exc B) : Exc B :=
  match c with
  | Ok a => k a
  | Throw e => Throw e
  end.

Notation "x <- c ;; k" := (bind c (fun x => k))
  (at level 61, c at next level, right associativity).

(** [e.code === c] *)
Definition has_code (e : JsError) (c : Z) : bool :=
  match err_code e with
  | Some c' => c' =? c
  | None => false
  end.

Definition TypeError (msg : string) : JsError :=
  {| err_name := "TypeError"; err_message := msg; err_code := None |}.

(** [String(e)] on an error object ([Error.prototype.toString]). *)
Definition error_toString (e : JsError) : string :=
  if (err_name e =? "")%string then err_message e
  else if (err_message e =? "")%string then err_name e
  else err_name e ++ ": " ++ err_message e.

(** ** Record values

    The value of a record is a decoded document: a scalar, an array or an
    object with string keys, nested at will.  A property read can also
    give a builtin object of the runtime, which no document contains: a
    method a value inherits from its prototype, or the prototype itself
    (through [__proto__]). *)

Import JsNumber.

(** The prototypes a document reaches: [Object.prototype],
    [Array.prototype], [String.prototype], [Number.prototype] and
    [Boolean.prototype]. *)
Inductive Kind : Type := KObject | KArray | KString | KNumber | KBoolean.

Inductive Native : Type :=
| Method (owner : Kind) (property : string)
| Prototype (k : Kind).

#[warnings="-register-all"]
Inductive value : Type :=
| VUndefined
| VNull
| VBoolean (b : bool)
| VNumber (x : number)
| VString (s : string)
| VArray (items : list value)
| VObject (fields : list (string * value))
| VNative (n : Native).

(** [typeof v] *)
Definition typeof (v : value) : string :=
  match v with
  | VUndefined => "undefined"
  | VBoolean _ => "boolean"
  | VNumber _ => "number"
  | VString _ => "string"
  | VNull | VArray _ | VObject _ => "object"
  | VNative (Method _ _) => "function"
  | VNative (Prototype _) => "object"
  end.

(** The string-keyed properties of each prototype, as the language
    standard lists them (ECMAScript 2023 with its annex B); [__proto__],
    an accessor, is apart.  [length] of an array or a string is a
    property of the value itself. *)
Definition ownNames (k : Kind) : list string :=
  match k with
  | KObject =>
      ["constructor"; "__defineGetter__"; "__defineSetter__";
       "__lookupGetter__"; "__lookupSetter__"; "hasOwnProperty";
       "isPrototypeOf"; "propertyIsEnumerable"; "toLocaleString";
       "toString"; "valueOf"]
  | KArray =>
      ["constructor"; "at"; "concat"; "copyWithin"; "entries"; "every";
       "fill"; "filter"; "find"; "findIndex"; "findLast"; "findLastIndex";
       "flat"; "flatMap"; "forEach"; "includes"; "indexOf"; "join"; "keys";
       "lastIndexOf"; "map"; "pop"; "push"; "reduce"; "reduceRight";
       "reverse"; "shift"; "slice"; "some"; "sort"; "splice";
       "toLocaleString"; "toReversed"; "toSorted"; "toSpliced"; "toString";
       "unshift"; "values"; "with"]
  | KString =>
      ["constructor"; "anchor"; "at"; "big"; "blink"; "bold"; "charAt";
       "charCodeAt"; "codePointAt"; "concat"; "endsWith"; "fixed";
       "fontcolor"; "fontsize"; "includes"; "indexOf"; "isWellFormed";
       "italics"; "lastIndexOf"; "link"; "localeCompare"; "match";
       "matchAll"; "normalize"; "padEnd"; "padStart"; "repeat"; "replace";
       "replaceAll"; "search"; "slice"; "small"; "split"; "startsWith";
       "strike"; "sub"; "substr"; "substring"; "sup"; "toLocaleLowerCase";
       "toLocaleUpperCase"; "toLowerCase"; "toString"; "toUpperCase";
       "toWellFormed"; "trim"; "trimEnd"; "trimLeft"; "trimRight";
       "trimStart"; "valueOf"]
  | KNumber =>
      ["constructor"; "toExponential"; "toFixed"; "toLocaleString";
       "toPrecision"; "toString"; "valueOf"]
  | KBoolean => ["constructor"; "toString"; "valueOf"]
  end.

Definition hasName (names : list string) (f : string) : bool :=
  existsb (String.eqb f) names.

(** What a value of kind [k] inherits under the name [f]: the property
    of its own prototype first, then that of [Object.prototype]. *)
Definition inherited (k : Kind) (f : string) : option Native :=
  if (f =? "__proto__")%string then Some (Prototype k)
  else if hasName (ownNames k) f then Some (Method k f)
  else if hasName (ownNames KObject) f then Some (Method KObject f)
  else None.

Definition inherit (k : Kind) (f : string) : value :=
  match inherited k f with
  | Some n => VNative n
  | None => VUndefined
  end.

(** The [name] of a builtin function: [constructor] is the constructor
    of the kind, [trimLeft] and [trimRight] are the functions [trimStart]
    and [trimEnd]. *)
Definition constructorName (k : Kind) : string :=
  match k with
  | KObject => "Object"
  | KArray => "Array"
  | KString => "String"
  | KNumber => "Number"
  | KBoolean => "Boolean"
  end.

Definition functionName (owner : Kind) (property : string) : string :=
  if (property =? "constructor")%string then constructorName owner
  else if (property =? "trimLeft")%string then "trimStart"
  else if (property =? "trimRight")%string then "trimEnd"
  else property.

Definition newline : string := String (ascii_of_nat 10) EmptyString.

(** The source text of a builtin function.  The language leaves its
    layout to the engine; this is the layout of JavaScriptCore, the
    engine of the runtime the server is written for. *)
Definition nativeText (name : string) : string :=
  "function " ++ name ++ "() {" ++ newline ++ "    [native code]"
  ++ newline ++ "}".

(** [String(n)] on a builtin: a function is its source text;
    [Object.prototype] is a plain object, [Array.prototype] an empty
    array, and the other prototypes wrap the empty string, zero and
    [false]. *)
Definition native_toString (n : Native) : string :=
  match n with
  | Method owner property => nativeText (functionName owner property)
  | Prototype KObject => "[object Object]"
  | Prototype KArray => ""
  | Prototype KString => ""
  | Prototype KNumber => "0"
  | Prototype KBoolean => "false"
  end.

(** The text [String(v)] gives whenever that conversion returns
    ([StringOf] below tells when it does): an array is the
    comma-separated list of its elements, a [null] or [undefined]
    element being empty; a plain object is ["[object Object]"]. *)
Fixpoint ToString (v : value) : string :=
  match v with
  | VUndefined => "undefined"
  | VNull => "null"
  | VBoolean b => if b then "true" else "false"
  | VNumber x => JsNumber.toString x
  | VString s => s
  | VArray items =>
      String.concat ","
        (List.map (fun x => match x with
                            | VUndefined | VNull => ""
                            | _ => ToString x
                            end) items)
  | VObject _ => "[object Object]"
  | VNative n => native_toString n
  end.

(** The index a property name denotes, when it is the canonical decimal
    form of a natural number (["0"], ["17"], but not ["01"] or ["1.0"]). *)
Definition array_index (f : string) : option nat :=
  let '(i, n, rest) := digits_acc digit_val 10 f 0 0%nat in
  if (0 <? n)%nat && (rest =? "")%string && (digits_of i =? f)%string
  then Some (Z.to_nat i) else None.

Fixpoint lookup (fields : list (string * value)) (f : string) : value :=
  match fields with
  | (k, x) :: rest => if (k =? f)%string then x else lookup rest f
  | [] => VUndefined
  end.

(** [Object.hasOwn(fields, f)] *)
Definition hasOwn (fields : list (string * value)) (f : string) : bool :=
  existsb (fun kx => (fst kx =? f)%string) fields.

(** Whether the conversion [String(v)] returns.  An object is converted
    by its [toString] method, then by [valueOf]: a field named
    [toString] of a document is not a function, the inherited [valueOf]
    gives back the object, and the conversion throws.  An array joins
    the conversions of its elements. *)
Fixpoint stringifies (v : value) : bool :=
  match v with
  | VArray items => forallb stringifies items
  | VObject fields => negb (hasOwn fields "toString")
  | _ => true
  end.

(** [String(v)], and [v] in a template literal. *)
Definition StringOf (v : value) : Exc string :=
  if stringifies v then Ok (ToString v)
  else Throw (TypeError "Cannot convert object to primitive value").

(** The property read [v[f]].  Reading a property of [null] or
    [undefined] throws.  A string and an array have [length] and their
    indices, an object has its fields; what a value does not have
    itself it inherits from its prototype, and is [undefined] when the
    prototypes do not have it either.  A builtin is never a record; of
    its properties only those every object inherits are modelled. *)
Definition get (v : value) (f : string) : Exc value :=
  match v with
  | VUndefined =>
      Throw (TypeError ("Cannot read properties of undefined (reading '"
                        ++ f ++ "')"))
  | VNull =>
      Throw (TypeError ("Cannot read properties of null (reading '"
                        ++ f ++ "')"))
  | VBoolean _ => Ok (inherit KBoolean f)
  | VNumber _ => Ok (inherit KNumber f)
  | VString s =>
      if (f =? "length")%string
      then Ok (VNumber (of_Z (Z.of_nat (String.length s))))
      else match array_index f with
           | Some i => match String.get i s with
                       | Some c => Ok (VString (String c EmptyString))
                       | None => Ok VUndefined
                       end
           | None => Ok (inherit KString f)
           end
  | VArray items =>
      if (f =? "length")%string
      then Ok (VNumber (of_Z (Z.of_nat (List.length items))))
      else match array_index f with
           | Some i => Ok (nth i items VUndefined)
           | None => Ok (inherit KArray f)
           end
  | VObject fields =>
      if hasOwn fields f then Ok (lookup fields f)
      else Ok (inherit KObject f)
  | VNative _ => Ok (inherit KObject f)
  end.

(** ** The filter closure (index.ts, lines 319-370) *)

(** [const numValue = Number(filterValue)] *)
Definition Number (s : string) : number := StringToNumber s.

(** [const isNumeric = !isNaN(numValue) && filterValue.trim() !== ""] *)
Definition isNumeric (filterValue : string) : bool :=
  negb (isNaN (Number filterValue))
  && negb (JsString.trim filterValue =? "")%string.

Definition filterPredicate (filterField filterOperator filterValue : string)
    (value : value) : Exc bool :=
  fieldValue <- get value filterField ;;
  let numValue := Number filterValue in
  let isNumeric := isNumeric filterValue in
  if (filterOperator =? "=")%string then
    match fieldValue with
    | VString str =>
        Ok (JsString.toLowerCase str =? JsString.toLowerCase filterValue)%string
    | VNumber x =>
        if isNumeric then Ok (JsNumber.eq x numValue)
        else (text <- StringOf fieldValue ;; Ok (text =? filterValue)%string)
    | _ => text <- StringOf fieldValue ;; Ok (text =? filterValue)%string
    end
  else if (filterOperator =? "!=")%string then
    match fieldValue with
    | VString str =>
        Ok (negb (JsString.toLowerCase str
                  =? JsString.toLowerCase filterValue)%string)
    | VNumber x =>
        if isNumeric then Ok (JsNumber.neq x numValue)
        else (text <- StringOf fieldValue ;;
              Ok (negb (text =? filterValue)%string))
    | _ => text <- StringOf fieldValue ;;
           Ok (negb (text =? filterValue)%string)
    end
  else if (filterOperator =? ">")%string then
    match fieldValue with
    | VNumber x => Ok (if isNumeric then JsNumber.gt x numValue else false)
    | _ => text <- StringOf fieldValue ;; Ok (JsString.gt text filterValue)
    end
  else if (filterOperator =? "<")%string then
    match fieldValue with
    | VNumber x => Ok (if isNumeric then JsNumber.lt x numValue else false)
    | _ => text <- StringOf fieldValue ;; Ok (JsString.lt text filterValue)
    end
  else if (filterOperator =? ">=")%string then
    match fieldValue with
    | VNumber x => Ok (if isNumeric then JsNumber.ge x numValue else false)
    | _ => text <- StringOf fieldValue ;; Ok (JsString.ge text filterValue)
    end
  else if (filterOperator =? "<=")%string then
    match fieldValue with
    | VNumber x => Ok (if isNumeric then JsNumber.le x numValue else false)
    | _ => text <- StringOf fieldValue ;; Ok (JsString.le text filterValue)
    end
  else Ok true.

(** [xs.slice(0, end)]: a negative [end] counts from the end of the
    array, and the result never reaches past it. *)
Definition slice0 {A : Type} (xs : list A) (end_ : number) : list A :=
  let len := Z.of_nat (List.length xs) in
  let final :=
    match ToIntegerOrInfinity end_ with
    | NegInfinity => 0
    | Integer z => if z <? 0 then Z.max (len + z) 0 else Z.min z len
    | PosInfinity => len
    end in
  firstn (Z.to_nat final) xs.

(** ** The options object and the records

    [searchOptions] as the handler builds it: [limit] is always set,
    [filters], [deepSearch] and [sort] only under their guards (an absent
    property is [None]). *)
Record SearchOptions : Type := mkOptions {
  so_limit : number;
  so_filters : option (list (value -> Exc bool));
  so_deepSearch : option string;
  so_sort : option (value -> value -> Exc number)
}.

(** A record as the search library returns it, and as the handler sends
    it back (its key prefixed with the name of the sub-database). *)
Record Found : Type := mkFound {
  found_key : value;
  found_value : value
}.

Record Row : Type := mkRow {
  row_key : string;
  row_value : value
}.

(** The JSON body of the response: [{results, count}], with [error] on
    the failure path. *)
Record Response : Type := mkResponse {
  resp_error : option string;
  resp_results : list Row;
  resp_count : nat
}.

(** The raw query parameters of a request ([None]: parameter absent). *)
Record Request : Type := mkRequest {
  req_dbName : string;
  req_query : option string;
  req_filterField : option string;
  req_filterOperator : option string;
  req_filterValue : option string;
  req_sortBy : option string;
  req_sortOrder : option string;
  req_limit : option string;
  req_path : option string
}.

(** ** The search handler (index.ts, lines 276-454)

    What the handler takes from outside is kept abstract: the collation
    behind [localeCompare], the storage binding ([open], and a root handle
    with [getKeys] and [openDB]) and the search library ([search]). *)

Section Handler.

(** [a.localeCompare(b)] *)
Variable localeCompare : string -> string -> number.

(** A sub-database handle, and [search(subDb, searchOptions)]. *)
Variable SubDb : Type.
Variable search : SubDb -> SearchOptions -> Exc (list Found).

(** A root handle: [rootDb.getKeys()] and [rootDb.openDB({name})]. *)
Record RootDb : Type := mkRootDb {
  getKeys : Exc (list value);
  openDB : string -> Exc SubDb
}.

(** [open({path, maxDbs: 1024, maxReaders: 256})] *)
Variable open : string -> Exc RootDb.

(** [process.env.DB_PATH || "./data"] *)
Variable DB_PATH : string.

Record DatabaseConfig : Type := mkConfig {
  cfg_name : string;
  cfg_path : string;
  cfg_collections : list string;
  cfg_dbHandle : option RootDb
}.

(** [activeDatabases]: a map in insertion order. *)
Definition Registry : Type := list (string * DatabaseConfig).

Fixpoint registry_get (activeDatabases : Registry) (dbName : string)
    : option DatabaseConfig :=
  match activeDatabases with
  | (k, c) :: rest =>
      if (k =? dbName)%string then Some c else registry_get rest dbName
  | [] => None
  end.

(** What the handler does besides computing its response: the lines it
    writes to the console and its calls to the search library, in
    order. *)
Inductive Event : Type :=
| LogSearchRequest (dbName dbPath : string)
| LogActiveDatabases (names : list string)
| LogReading (dbPath : string)
| LogSubDatabases (n : nat)
| CallSearch (name : string) (options : SearchOptions)
| LogFound (n : nat) (name : string)
| LogFailed (name : string) (what : string + JsError)
| LogTotal (n : nat)
| LogErrorReading (e : JsError).

(** *** The sort closures (lines 382-403) *)

Definition sortAscending (sortBy : string) (a b : value) : Exc number :=
  aVal <- get a sortBy ;;
  bVal <- get b sortBy ;;
  match aVal, bVal with
  | VString x, VString y => Ok (localeCompare x y)
  | VNumber x, VNumber y => Ok (JsNumber.sub x y)
  | _, _ => Ok zero
  end.

Definition sortDescending (sortBy : string) (a b : value) : Exc number :=
  aVal <- get a sortBy ;;
  bVal <- get b sortBy ;;
  match aVal, bVal with
  | VString x, VString y => Ok (localeCompare y x)
  | VNumber x, VNumber y => Ok (JsNumber.sub y x)
  | _, _ => Ok zero
  end.

(** *** Building [searchOptions] (lines 312-404) *)

Definition buildSearchOptions
    (query filterField filterOperator filterValue sortBy sortOrder : string)
    (limit : number) : SearchOptions :=
  {| so_limit := JsNumber.mul limit (of_Z 10);
     so_filters :=
       if JsString.truthy filterField
          && negb (filterField =? "__none__")%string
          && JsString.truthy filterValue
       then Some [filterPredicate filterField filterOperator filterValue]
       else None;
     so_deepSearch := if JsString.truthy query then Some query else None;
     so_sort :=
       if JsString.truthy sortBy && negb (sortBy =? "__none__")%string
       then Some (if (sortOrder =? "asc")%string
                  then sortAscending sortBy
                  else sortDescending sortBy)
       else None |}.

(** *** The loop over the sub-databases (lines 408-432) *)

(** The keys of a store and of its records are strings, numbers,
    booleans or arrays of those: their conversion [String(key)] always
    returns, and [ToString] is that conversion. *)

(** [results.push({key: `${String(key)}:${record.key}`, value})] *)
Definition prefixed (name : string) (record : Found) : Row :=
  {| row_key := name ++ ":" ++ ToString (found_key record);
     row_value := found_value record |}.

(** The [catch] of one sub-database: a line on the console unless the
    code of the error is -30790, and on to the next sub-database. *)
Definition onSubDbError (name : string) (subDbError : JsError)
    : list Event :=
  if negb (has_code subDbError (-30790))
  then [LogFailed name
          (if JsString.truthy (err_message subDbError)
           then inl (err_message subDbError) else inr subDbError)]
  else [].

(** One turn of the loop: the rows pushed and the events. *)
Definition processSubDb (rootDb : RootDb) (searchOptions : SearchOptions)
    (key : value) : list Row * list Event :=
  let name := ToString key in
  match openDB rootDb name with
  | Throw subDbError => ([], onSubDbError name subDbError)
  | Ok subDb =>
      match search subDb searchOptions with
      | Throw subDbError =>
          ([], CallSearch name searchOptions :: onSubDbError name subDbError)
      | Ok subDbResults =>
          if (0 <? List.length subDbResults)%nat
          then (List.map (prefixed name) subDbResults,
                [CallSearch name searchOptions;
                 LogFound (List.length subDbResults) name])
          else ([], [CallSearch name searchOptions])
      end
  end.

Fixpoint processSubDbs (rootDb : RootDb) (searchOptions : SearchOptions)
    (keys : list value) (results : list Row) (trace : list Event)
    : list Row * list Event :=
  match keys with
  | [] => (results, trace)
  | key :: rest =>
      let '(rows, events) := processSubDb rootDb searchOptions key in
      processSubDbs rootDb searchOptions rest
        (results ++ rows)%list (trace ++ events)%list
  end.

(** *** The handler *)

(** [dbConfig?.dbHandle || open({...})]: the cached handle when the
    database is loaded, a fresh one otherwise. *)
Definition acquireRoot (dbConfig : option DatabaseConfig) (dbPath : string)
    : Exc RootDb :=
  match dbConfig with
  | Some c => match cfg_dbHandle c with
              | Some h => Ok h
              | None => open dbPath
              end
  | None => open dbPath
  end.

(** The query parameters after their defaults (lines 280-287). *)
Definition requestLimit (req : Request) : number :=
  parseInt (JsString.or_default (req_limit req) "100").

Definition requestOptions (req : Request) : SearchOptions :=
  let query := JsString.or_default (req_query req) "" in
  let filterField := JsString.or_default (req_filterField req) "" in
  let filterOperator := JsString.or_default (req_filterOperator req) "=" in
  let filterValue := JsString.or_default (req_filterValue req) "" in
  let sortBy := JsString.or_default (req_sortBy req) "" in
  let sortOrder := JsString.or_default (req_sortOrder req) "asc" in
  buildSearchOptions query filterField filterOperator filterValue
    sortBy sortOrder (requestLimit req).

(** [customPath || (dbConfig?.path) || DB_PATH] *)
Definition requestPath (activeDatabases : Registry) (req : Request)
    : string :=
  let customPath := JsString.or_default (req_path req) "" in
  let dbConfig := registry_get activeDatabases (req_dbName req) in
  JsString.or_else customPath
    (JsString.or_default (option_map cfg_path dbConfig) DB_PATH).

(** The root handle and the keys of the root store (lines 303-308). *)
Definition openRoot (activeDatabases : Registry) (req : Request)
    : Exc (RootDb * list value) :=
  rootDb <- acquireRoot (registry_get activeDatabases (req_dbName req))
              (requestPath activeDatabases req) ;;
  keys <- getKeys rootDb ;;
  Ok (rootDb, keys).

(** The handler proper: the response body and the trace of effects.  The
    inner [try] covers everything from opening the root store to the last
    console line; its [catch] answers with the error body.  (The outer
    [catch], with status 500, guards the parsing of the request and the
    serialisation of the response, neither of which throws here.) *)
Definition searchHandler (activeDatabases : Registry) (req : Request)
    : Response * list Event :=
  let dbName := req_dbName req in
  let limit := requestLimit req in
  let dbPath := requestPath activeDatabases req in
  let trace :=
    [LogSearchRequest dbName dbPath;
     LogActiveDatabases (List.map fst activeDatabases);
     LogReading dbPath] in
  match openRoot activeDatabases req with
  | Throw error =>
      ({| resp_error :=
            Some ("Failed to read database: " ++ error_toString error);
          resp_results := [];
          resp_count := 0 |},
       (trace ++ [LogErrorReading error])%list)
  | Ok (rootDb, keys) =>
      let searchOptions := requestOptions req in
      let '(results, trace) :=
        processSubDbs rootDb searchOptions keys []
          (trace ++ [LogSubDatabases (List.length keys)])%list in
      let limitedResults := slice0 results limit in
      ({| resp_error := None;
          resp_results := limitedResults;
          resp_count := List.length limitedResults |},
       (trace ++ [LogTotal (List.length results)])%list)
  end.

(** The calls to the search library and the failure lines of a trace. *)
Definition searchCalls (trace : list Event)
    : list (string * SearchOptions) :=
  flat_map (fun ev => match ev with
                      | CallSearch name options => [(name, options)]
                      | _ => []
                      end) trace.

Definition failureLines (trace : list Event)
    : list (string * (string + JsError)) :=
  flat_map (fun ev => match ev with
                      | LogFailed name what => [(name, what)]
                      | _ => []
                      end) trace.

End Handler.

Arguments mkRootDb {SubDb} _ _.
Arguments getKeys {SubDb} _.
Arguments openDB {SubDb} _ _.
Arguments mkConfig {SubDb} _ _ _ _.

(** ** The words of the specification

    Definitions that follow the specification's vocabulary rather than the
    code, to compare with the code's own tests. *)

Module Spec.

(** Two code units are the same letter when they are equal or one is a
    capital and the other its small letter. *)
Definition isCapital (c : ascii) : bool :=
  let n := JsString.code c in
  (((65 <=? n) && (n <=? 90))
   || ((192 <=? n) && (n <=? 222) && negb (n =? 215)))%N.

Definition same_letter (c d : ascii) : bool :=
  (c =? d)%char
  || (isCapital c && (JsString.code d =? JsString.code c + 32)%N)
  || (isCapital d && (JsString.code c =? JsString.code d + 32)%N).

(** Case-insensitive equality of two strings: the same length and the
    same letter at every position. *)
Fixpoint equal_ignoring_case (a b : string) : bool :=
  match a, b with
  | EmptyString, EmptyString => true
  | String c a', String d b' => same_letter c d && equal_ignoring_case a' b'
  | _, _ => false
  end.

(** Lexicographic order on code units: a proper prefix comes first,
    otherwise the first differing code unit decides. *)
Inductive lex_lt : string -> string -> Prop :=
| lex_lt_prefix c t : lex_lt EmptyString (String c t)
| lex_lt_head c d s t :
    (JsString.code c < JsString.code d)%N ->
    lex_lt (String c s) (String d t)
| lex_lt_tail c s t : lex_lt s t -> lex_lt (String c s) (String c t).

Definition lex_le (a b : string) : Prop := a = b \/ lex_lt a b.

(** The sign of a comparator's result.  A NaN has none. *)
Inductive Sign : Type := Negative | Zero | Positive.

Definition sign_of (x : number) : option Sign :=
  match x with
  | S754_nan => None
  | S754_zero _ => Some Zero
  | S754_infinity s | S754_finite s _ _ =>
      Some (if s then Negative else Positive)
  end.

Definition opposite (s : Sign) : Sign :=
  match s with
  | Negative => Positive
  | Positive => Negative
  | Zero => Zero
  end.

(** *** Numeric literals

    A text parses as a number when, the white space around it apart, it
    is not empty and is one of: a decimal literal with an optional
    sign, that is digits with an optional fraction, or a fraction
    alone, and then an optional exponent; the word [Infinity] with an
    optional sign; an unsigned integer in radix 16, 8 or 2 after [0x],
    [0o] or [0b]. *)
Definition isDigit (radix : N) (c : ascii) : bool :=
  let n := JsString.code c in
  (((48 <=? n) && (n <? 48 + N.min radix 10))
   || ((radix =? 16)
       && (((97 <=? n) && (n <=? 102)) || ((65 <=? n) && (n <=? 70)))))%N.

Fixpoint allDigits (radix : N) (s : string) : bool :=
  match s with
  | String c r => isDigit radix c && allDigits radix r
  | EmptyString => true
  end.

(** One digit or more, and nothing else. *)
Definition digitString (radix : N) (s : string) : bool :=
  negb (s =? "")%string && allDigits radix s.

(** The decimal digits at the head of a text, and what follows them. *)
Fixpoint leadingDigits (s : string) : string :=
  match s with
  | String c r => if isDigit 10 c then String c (leadingDigits r) else ""
  | EmptyString => ""
  end.

Fixpoint afterDigits (s : string) : string :=
  match s with
  | String c r => if isDigit 10 c then afterDigits r else s
  | EmptyString => ""
  end.

Definition isSign (c : ascii) : bool := (c =? "+")%char || (c =? "-")%char.

Definition exponentPart (s : string) : bool :=
  match s with
  | EmptyString => true
  | String c r =>
      ((c =? "e")%char || (c =? "E")%char)
      && match r with
         | String d t => if isSign d then digitString 10 t
                         else digitString 10 r
         | EmptyString => false
         end
  end.

Definition decimalLiteral (s : string) : bool :=
  let whole := leadingDigits s in
  match afterDigits s with
  | String c r =>
      if (c =? ".")%char
      then (negb (whole =? "")%string || negb (leadingDigits r =? "")%string)
           && exponentPart (afterDigits r)
      else negb (whole =? "")%string && exponentPart (String c r)
  | EmptyString => negb (whole =? "")%string
  end.

Definition unsignedLiteral (s : string) : bool :=
  (s =? "Infinity")%string || decimalLiteral s.

Definition radixPrefix (t : string) : option (N * string) :=
  match t with
  | String c (String x r) =>
      if (c =? "0")%char then
        if (x =? "x")%char || (x =? "X")%char then Some (16%N, r)
        else if (x =? "o")%char || (x =? "O")%char then Some (8%N, r)
        else if (x =? "b")%char || (x =? "B")%char then Some (2%N, r)
        else None
      else None
  | _ => None
  end.

Definition numericLiteral (t : string) : bool :=
  match radixPrefix t with
  | Some (radix, r) => digitString radix r
  | None =>
      match t with
      | String c r => if isSign c then unsignedLiteral r
                      else unsignedLiteral t
      | EmptyString => false
      end
  end.

Definition parses_as_number (s : string) : bool :=
  numericLiteral (JsString.trim s).

(** The operators the filter knows. *)
Definition known_operators : list string :=
  ["="; "!="; ">"; "<"; ">="; "<="].

(** [needle] occurs in [hay]. *)
Definition contains (hay needle : string) : Prop :=
  exists before after, hay = before ++ needle ++ after.

(** Every code unit of the model. *)
Definition all_ascii : list ascii := List.map ascii_of_nat (seq 0 256).

Section Stores.

Context {SubDb : Type}.
Variable search : SubDb -> SearchOptions -> Exc (list Found).
Variable rootDb : RootDb SubDb.
Variable options : SearchOptions.

(** What one sub-database does for a request: it opens and is
    searched, or one of the two throws. *)
Definition outcome (key : value) : Exc (list Found) :=
  subDb <- openDB rootDb (ToString key) ;;
  search subDb options.

(** The rows a sub-database contributes: its records under its name
    when it could be read, none when it could not. *)
Definition rowsOf (key : value) : list Row :=
  match outcome key with
  | Ok records => List.map (prefixed (ToString key)) records
  | Throw _ => []
  end.

(** The search calls a sub-database receives: one, when it opens. *)
Definition callsOf (key : value) : list (string * SearchOptions) :=
  match openDB rootDb (ToString key) with
  | Ok _ => [(ToString key, options)]
  | Throw _ => []
  end.

End Stores.

(** The error code of reader-slot exhaustion. *)
Definition MDB_READERS_FULL : Z := -30790.

(** What a failure line shows of an error: its message, or the error
    itself when it has none. *)
Definition reported (e : JsError) : string + JsError :=
  if (err_message e =? "")%string then inr e else inl (err_message e).

(** The failure lines a sub-database causes: one when it throws anything
    but reader-slot exhaustion. *)
Definition failuresOf {SubDb : Type}
    (search : SubDb -> SearchOptions -> Exc (list Found))
    (rootDb : RootDb SubDb) (options : SearchOptions) (key : value)
    : list (string * (string + JsError)) :=
  match outcome search rootDb options key with
  | Throw e =>
      if has_code e MDB_READERS_FULL then [] else [(ToString key, reported e)]
  | Ok _ => []
  end.

(** A request with its query text replaced, and a request without any
    of the three filter parameters. *)
Definition with_query (req : Request) (query : option string) : Request :=
  {| req_dbName := req_dbName req;
     req_query := query;
     req_filterField := req_filterField req;
     req_filterOperator := req_filterOperator req;
     req_filterValue := req_filterValue req;
     req_sortBy := req_sortBy req;
     req_sortOrder := req_sortOrder req;
     req_limit := req_limit req;
     req_path := req_path req |}.

Definition without_filter (req : Request) : Request :=
  {| req_dbName := req_dbName req;
     req_query := req_query req;
     req_filterField := None;
     req_filterOperator := None;
     req_filterValue := None;
     req_sortBy := req_sortBy req;
     req_sortOrder := req_sortOrder req;
     req_limit := req_limit req;
     req_path := req_path req |}.

End Spec.

(** A digit reader of the runtime reads the digits of a radix. *)
Definition reads (val : ascii -> option Z) (radix : N) : Prop :=
  forall c, match val c with Some _ => true | None => false end
            = Spec.isDigit radix c.

(** ** A store for examples

    A sub-database that answers every search with a fixed outcome, and a
    collation that orders strings by code unit: enough of a world to run
    the handler on concrete requests. *)

Module Example.

Definition SubDb : Type := Exc (list Found).

Definition search (subDb : SubDb) (_ : SearchOptions)
    : Exc (list Found) := subDb.

Definition localeCompare (a b : string) : number :=
  match String.compare a b with
  | Lt => of_Z (-1)
  | Eq => zero
  | Gt => of_Z 1
  end.

Definition num (s : string) : value := VNumber (Number s).

Definition product (name price : string) : value :=
  VObject [("name", VString name); ("price", num price)].

Definition products : list Found :=
  [ mkFound (VString "p1") (product "Laptop" "2499");
    mkFound (VString "p2") (product "Mouse" "89");
    mkFound (VString "p3") (product "Cable" "29") ].

Definition users : list Found :=
  [ mkFound (VString "u1") (VObject [("name", VString "Ada")]) ].

Definition readersFull : JsError :=
  mkError "Error" "MDB_READERS_FULL: Environment maxreaders limit reached"
    (Some (-30790)).

Definition badDbi : JsError :=
  mkError "Error" "MDB_BAD_DBI: The specified DBI handle was closed"
    (Some (-30780)).

(** A root store with four sub-databases: two readable, two failing. *)
Definition rootDb : RootDb SubDb :=
  mkRootDb
    (Ok [VString "products"; VString "stale"; VString "busy";
         VString "users"])
    (fun name =>
       if (name =? "products")%string then Ok (Ok products)
       else if (name =? "users")%string then Ok (Ok users)
       else if (name =? "busy")%string then Ok (Throw readersFull)
       else Throw badDbi).

Definition missing : JsError :=
  mkError "Error" "No such file or directory" (Some 2).

Definition open (path : string) : Exc (RootDb SubDb) :=
  if (path =? "./data")%string then Ok rootDb else Throw missing.

Definition request (limit : string) : Request :=
  mkRequest "shop" None None None None None None (Some limit) None.

Definition handler : Registry SubDb -> Request -> Response * list Event :=
  searchHandler localeCompare SubDb search open "./data".

End Example.

(** ** More of the runtime

    What the other routes of [index.ts] take from the language: truthiness
    and strict equality of values, and the string methods [includes],
    [split], [join], [startsWith], [endsWith] and [replace]. *)

(** [!!v]: [undefined], [null], [false], zero, NaN and [""] are falsy. *)
Definition truthy_value (v : value) : bool :=
  match v with
  | VUndefined | VNull => false
  | VBoolean b => b
  | VNumber (S754_zero _) | VNumber S754_nan => false
  | VNumber _ => true
  | VString s => JsString.truthy s
  | VArray _ | VObject _ | VNative _ => true
  end.

Definition kind_eqb (j k : Kind) : bool :=
  match j, k with
  | KObject, KObject | KArray, KArray | KString, KString
  | KNumber, KNumber | KBoolean, KBoolean => true
  | _, _ => false
  end.

(** Whether two builtins are the same object. *)
Definition native_eqb (m n : Native) : bool :=
  match m, n with
  | Method j f, Method k g =>
      kind_eqb j k && (f =? g)%string
      || (functionName j f =? functionName k g)%string && kind_eqb j k
         && negb (f =? "constructor")%string
         && negb (g =? "constructor")%string
  | Prototype j, Prototype k => kind_eqb j k
  | _, _ => false
  end.

(** [a === b].  Two arrays or objects are equal only when they are the
    same object; a value parsed from a request never is the same object
    as one held by the server. *)
Definition strict_equals (a b : value) : bool :=
  match a, b with
  | VUndefined, VUndefined => true
  | VNull, VNull => true
  | VBoolean x, VBoolean y => Bool.eqb x y
  | VNumber x, VNumber y => JsNumber.eq x y
  | VString x, VString y => (x =? y)%string
  | VNative m, VNative n => native_eqb m n
  | _, _ => false
  end.

Module StringOps.

(** [s.includes(c)] for a one-character [c]. *)
Fixpoint includes (c : ascii) (s : string) : bool :=
  match s with
  | String d r => (d =? c)%char || includes c r
  | EmptyString => false
  end.

(** [s.split(c)] for a one-character separator: never empty. *)
Fixpoint split (c : ascii) (s : string) : list string :=
  match s with
  | String d r =>
      if (d =? c)%char then EmptyString :: split c r
      else match split c r with
           | part :: parts => String d part :: parts
           | [] => [String d EmptyString]
           end
  | EmptyString => [EmptyString]
  end.

(** [parts.join(c)] *)
Definition join (c : ascii) (parts : list string) : string :=
  String.concat (String c EmptyString) parts.

(** [s.split(c).pop()] *)
Definition lastPart (c : ascii) (s : string) : string :=
  List.last (split c s) EmptyString.

(** [s.startsWith(p)] and [s.endsWith(p)] *)
Definition startsWith (p s : string) : bool := String.prefix p s.

Definition endsWith (p s : string) : bool :=
  (String.length p <=? String.length s)%nat
  && (substring (String.length s - String.length p) (String.length p) s
      =? p)%string.

(** The replacement text of [replace] with a string pattern: in the
    template, [$$] is a dollar, [$&] the matched text, [$`] the text
    before the match and [$'] the text after it; there are no groups, so
    any other [$] stands for itself. *)
Fixpoint substitute (matched before after template : string) : string :=
  match template with
  | String d t =>
      if (d =? "$")%char then
        match t with
        | String c r =>
            if (c =? "$")%char
            then String "$" (substitute matched before after r)
            else if (c =? "&")%char
            then matched ++ substitute matched before after r
            else if (c =? "`")%char
            then before ++ substitute matched before after r
            else if (c =? "'")%char
            then after ++ substitute matched before after r
            else String "$" (String c (substitute matched before after r))
        | EmptyString => String "$" EmptyString
        end
      else String d (substitute matched before after t)
  | EmptyString => EmptyString
  end.

(** [s.replace(c, template)] for a one-character pattern: the first
    occurrence only. *)
Fixpoint replaceFrom (c : ascii) (template before s : string) : string :=
  match s with
  | String d r =>
      if (d =? c)%char
      then before ++ substitute (String c EmptyString) before r template ++ r
      else replaceFrom c template (before ++ String d EmptyString) r
  | EmptyString => before
  end.

Definition replace (c : ascii) (template s : string) : string :=
  replaceFrom c template EmptyString s.

End StringOps.

(** [xs.splice(start, 1)]: what is left of the array. *)
Definition splice1 {A : Type} (xs : list A) (start : number) : list A :=
  let len := Z.of_nat (List.length xs) in
  let actualStart :=
    match ToIntegerOrInfinity start with
    | NegInfinity => 0
    | Integer z => if z <? 0 then Z.max (len + z) 0 else Z.min z len
    | PosInfinity => len
    end in
  (firstn (Z.to_nat actualStart) xs
   ++ skipn (Z.to_nat actualStart + 1) xs)%list.

(** ** Home directories (index.ts, lines 49-55) *)

(** The two environment variables [expandPath] reads ([None]: unset). *)
Record Env : Type := mkEnv {
  HOME : option string;
  USERPROFILE : option string
}.

(** [process.env.HOME || process.env.USERPROFILE || ''] *)
Definition homeDir (env : Env) : string :=
  JsString.or_default (HOME env)
    (JsString.or_default (USERPROFILE env) "").

Definition expandPath (env : Env) (path : string) : string :=
  if StringOps.startsWith "~/" path || (path =? "~")%string
  then StringOps.replace "~" (homeDir env) path
  else path.

(** ** JSON replies

    [Response.json(body, {status})]: the status (200 when none is given)
    and the body as a value. *)
Record JsonReply : Type := mkReply {
  reply_status : Z;
  reply_body : value
}.

Definition json (fields : list (string * value)) : JsonReply :=
  {| reply_status := 200; reply_body := VObject fields |}.

Definition jsonError (status : Z) (message : string) : JsonReply :=
  {| reply_status := status;
     reply_body := VObject [("error", VString message)] |}.

(** The outer [catch] of a route: [{error: String(error)}], status 500. *)
Definition serverError (error : JsError) : JsonReply :=
  jsonError 500 (error_toString error).

(** ** Bookmarks (index.ts, lines 146-197)

    [bookmarks] is the array read from the bookmarks file: its elements
    are whatever the file holds.  A handler returns its reply and the
    array as it leaves it. *)

(** [bookmarks.find((b) => b.path === path)] *)
Fixpoint findByPath (bookmarks : list value) (path : value)
    : Exc (option value) :=
  match bookmarks with
  | b :: rest =>
      p <- get b "path" ;;
      if strict_equals p path then Ok (Some b) else findByPath rest path
  | [] => Ok None
  end.

(** [name || path.split('/').pop() || "database"] *)
Definition bookmarkName (name path : value) : Exc value :=
  if truthy_value name then Ok name
  else match path with
       | VString p =>
           Ok (VString (JsString.or_else (StringOps.lastPart "/" p)
                          "database"))
       | _ => Throw (TypeError "path.split is not a function")
       end.

Section Bookmarks.

(** [saveBookmarks(bookmarks)], which writes the file, and
    [new Date().toISOString()]. *)
Variable saveBookmarks : list value -> Exc unit.
Variable now : string.

(** [POST /api/bookmarks]; [body] is the outcome of [req.json()]. *)
Definition postBookmark (bookmarks : list value) (body : Exc value)
    : JsonReply * list value :=
  let attempt : Exc (JsonReply * list value) :=
    b <- body ;;
    path <- get b "path" ;;
    name <- get b "name" ;;
    if negb (truthy_value path)
    then Ok (jsonError 400 "Path is required", bookmarks)
    else
      exists_ <- findByPath bookmarks path ;;
      if match exists_ with
         | Some found => truthy_value found
         | None => false
         end
      then Ok (jsonError 400 "Already bookmarked", bookmarks)
      else
        named <- bookmarkName name path ;;
        let bookmark :=
          VObject [("name", named); ("path", path);
                   ("createdAt", VString now)] in
        let pushed := (bookmarks ++ [bookmark])%list in
        match saveBookmarks pushed with
        | Ok _ => Ok (json [("bookmark", bookmark)], pushed)
        | Throw error => Ok (serverError error, pushed)
        end in
  match attempt with
  | Ok done => done
  | Throw error => (serverError error, bookmarks)
  end.

(** [DELETE /api/bookmarks/:index] *)
Definition deleteBookmark (bookmarks : list value) (indexParam : string)
    : JsonReply * list value :=
  let index := parseInt indexParam in
  if isNaN index || JsNumber.lt index zero
     || JsNumber.ge index (of_Z (Z.of_nat (List.length bookmarks)))
  then (jsonError 400 "Invalid bookmark index", bookmarks)
  else
    let spliced := splice1 bookmarks index in
    match saveBookmarks spliced with
    | Ok _ => (json [("message", VString "Bookmark deleted")], spliced)
    | Throw error => (serverError error, spliced)
    end.

End Bookmarks.

(** ** Listing and reading records (index.ts, lines 456-560) *)

Section Records.

Variable SubDb : Type.
Variable open : string -> Exc (RootDb SubDb).
Variable DB_PATH : string.

(** [subDb.getRange()] as the loop sees it: the entries it yields, in
    order, and the error that ends the iteration when one does. *)
Variable getRange : SubDb -> list value * option JsError.

(** [subDb.get(key)] and [rootDb.get(key)]: [undefined] for a key that
    is not there. *)
Variable subGet : SubDb -> string -> Exc value.
Variable rootGet : RootDb SubDb -> string -> Exc value.

(** One turn of the loop of the listing (lines 479-484): the keys pushed
    before the sub-database is done or throws; the [catch] is empty. *)
Definition listSubDb (rootDb : RootDb SubDb) (key : value) : list string :=
  match openDB rootDb (ToString key) with
  | Ok subDb =>
      List.map (fun recordKey => ToString key ++ ":" ++ ToString recordKey)
        (fst (getRange subDb))
  | Throw _ => []
  end.

Definition recordsLimit (req : Request) : number :=
  parseInt (JsString.or_default (req_limit req) "1000").

(** [GET /api/databases/:dbName/records] *)
Definition recordsHandler (activeDatabases : Registry SubDb) (req : Request)
    : JsonReply :=
  let limit := recordsLimit req in
  match openRoot SubDb open DB_PATH activeDatabases req with
  | Throw error => serverError error
  | Ok (rootDb, keys) =>
      let allKeys := flat_map (listSubDb rootDb) keys in
      let limitedKeys := slice0 allKeys limit in
      json [("keys", VArray (List.map VString limitedKeys));
            ("count",
             VNumber (of_Z (Z.of_nat (List.length limitedKeys))))]
  end.

(** The loop over the sub-databases of the record route (lines 545-553):
    the first truthy value; a sub-database that throws is passed over. *)
Fixpoint firstInSubDbs (rootDb : RootDb SubDb) (key : string)
    (keys : list value) : option value :=
  match keys with
  | subDbName :: rest =>
      match (subDb <- openDB rootDb (ToString subDbName) ;;
             subGet subDb key) with
      | Ok subValue =>
          if truthy_value subValue then Some subValue
          else firstInSubDbs rootDb key rest
      | Throw _ => firstInSubDbs rootDb key rest
      end
  | [] => None
  end.

(** [GET /api/databases/:dbName/records/:key] *)
Definition recordHandler (activeDatabases : Registry SubDb) (req : Request)
    (key : string) : JsonReply :=
  let found (value : value) :=
    json [("key", VString key); ("value", value)] in
  let notFound := jsonError 404 "Record not found" in
  let acquire :=
    acquireRoot SubDb open
      (registry_get SubDb activeDatabases (req_dbName req))
      (requestPath SubDb DB_PATH activeDatabases req) in
  let attempt : Exc JsonReply :=
    if StringOps.includes ":" key then
      let parts := StringOps.split ":" key in
      let subDbName := List.hd EmptyString parts in
      let actualKey := StringOps.join ":" (List.tl parts) in
      rootDb <- acquire ;;
      subDb <- openDB rootDb subDbName ;;
      value <- subGet subDb actualKey ;;
      if negb (truthy_value value) then Ok notFound else Ok (found value)
    else
      rootDb <- acquire ;;
      value <- rootGet rootDb key ;;
      if truthy_value value then Ok (found value)
      else
        keys <- getKeys rootDb ;;
        match firstInSubDbs rootDb key keys with
        | Some subValue => Ok (found subValue)
        | None => Ok notFound
        end in
  match attempt with
  | Ok reply => reply
  | Throw error => serverError error
  end.

End Records.

(** ** Scanning directories (index.ts, lines 58-82 and 120-144) *)

(** An entry of [readdir(dir, {withFileTypes: true})], and an entry of
    the result of the scan. *)
Record Dirent : Type := mkDirent {
  dirent_name : string;
  dirent_isDirectory : bool
}.

Record Scanned : Type := mkScanned {
  scanned_path : string;
  scanned_name : string
}.

(** The console lines of a scan. *)
Inductive ScanEvent : Type :=
| ScanStart (dir : string)
| ScanFailed (dir : string) (error : JsError)
| ScanDone (n : nat) (dir : string)
| ScanCrashed (error : JsError).

Definition ScanState : Type := list Scanned * list ScanEvent.

Section Scan.

Variable env : Env.

(** [readdir] of a path and [join] of a path and a name. *)
Variable readdir : string -> Exc (list Dirent).
Variable join : string -> string -> string.

(** One turn of the loop over the entries of [expandedDir]: a directory
    is scanned in turn, a file whose name ends in [.mdb] is pushed. *)
Definition scanEntry (recurse : string -> ScanState -> option ScanState)
    (expandedDir : string) (state : option ScanState) (entry : Dirent)
    : option ScanState :=
  match state with
  | Some (found, log) =>
      let fullPath := join expandedDir (dirent_name entry) in
      if dirent_isDirectory entry then recurse fullPath (found, log)
      else if StringOps.endsWith ".mdb" (dirent_name entry)
      then Some ((found ++ [mkScanned expandedDir (dirent_name entry)])%list,
                 log)
      else Some (found, log)
  | None => None
  end.

(** [findMdbFiles(dir, found)]: the recursion follows the directory tree,
    so it is given [fuel] for its depth; [None] is running out of it.  An
    error of [readdir] is caught where it happens and written to the
    console. *)
Fixpoint findMdbFiles (fuel : nat) (dir : string) (state : ScanState)
    : option ScanState :=
  match fuel with
  | O => None
  | S fuel' =>
      let expandedDir := expandPath env dir in
      match readdir expandedDir with
      | Ok entries =>
          fold_left (scanEntry (findMdbFiles fuel') expandedDir) entries
            (Some state)
      | Throw error =>
          Some (fst state, (snd state ++ [ScanFailed dir error])%list)
      end
  end.

(** How a scan of the route ends: with what it found, or with an error
    thrown past its [catch]; the console lines are kept either way. *)
Definition ScanOutcome : Type := Exc (list Scanned) * list ScanEvent.

(** What [expandPath] throws on an element that is not a string: it
    has no [startsWith] to call. *)
Definition notAPath (dir : value) : JsError :=
  match dir with
  | VUndefined | VNull =>
      TypeError "Cannot read properties (reading 'startsWith')"
  | _ => TypeError "path.startsWith is not a function"
  end.

(** [findMdbFiles(dir)] on an element of the posted array: for anything
    but a string the [catch] of the scan turns the error of [expandPath]
    into a console line and an empty result.  The line holds [dir] in a
    template literal: when that conversion throws, inside the [catch],
    the error leaves [findMdbFiles]. *)
Definition findFrom (fuel : nat) (dir : value) (log : list ScanEvent)
    : option ScanOutcome :=
  match dir with
  | VString d =>
      match findMdbFiles fuel d ([], log) with
      | Some (found, log') => Some (Ok found, log')
      | None => None
      end
  | _ =>
      match StringOf dir with
      | Ok text => Some (Ok [], (log ++ [ScanFailed text (notAPath dir)])%list)
      | Throw error => Some (Throw error, log)
      end
  end.

(** The loop of the route over the posted directories (lines 131-136).
    The two console lines hold [dir] in a template literal, outside the
    [try] of [findMdbFiles]: a conversion that throws ends the loop. *)
Fixpoint scanAll (fuel : nat) (directories : list value) (state : ScanState)
    : option ScanOutcome :=
  match directories with
  | dir :: rest =>
      let '(found, log) := state in
      match StringOf dir with
      | Ok text =>
          match findFrom fuel dir (log ++ [ScanStart text])%list with
          | Some (Ok results, log') =>
              scanAll fuel rest
                ((found ++ results)%list,
                 (log' ++ [ScanDone (List.length results) text])%list)
          | Some (Throw error, log') => Some (Throw error, log')
          | None => None
          end
      | Throw error => Some (Throw error, log)
      end
  | [] => Some (Ok (fst state), snd state)
  end.

Definition scannedValue (s : Scanned) : value :=
  VObject [("path", VString (scanned_path s));
           ("name", VString (scanned_name s))].

(** [POST /api/scan-directories]; [body] is the outcome of [req.json()]. *)
Definition scanDirectories (fuel : nat) (body : Exc value)
    : option (JsonReply * list ScanEvent) :=
  match (b <- body ;; get b "directories") with
  | Throw error => Some (serverError error, [ScanCrashed error])
  | Ok (VArray directories) =>
      match scanAll fuel directories ([], []) with
      | Some (Ok found, log) =>
          Some (json [("databases", VArray (List.map scannedValue found))],
                log)
      | Some (Throw error, log) =>
          Some (serverError error, (log ++ [ScanCrashed error])%list)
      | None => None
      end
  | Ok _ => Some (jsonError 400 "Directories must be an array", [])
  end.

End Scan.

(** The depth of the tree below an element of a posted array, and what
    makes a scanned entry a database file. *)
Definition depthOf (depth : string -> nat) (dir : value) : nat :=
  match dir with
  | VString d => depth d
  | _ => 0%nat
  end.

Definition isMdb (s : Scanned) : Prop :=
  StringOps.endsWith ".mdb" (scanned_name s) = true.

(** What a scan has found is kept, and what it adds are files whose names
    end in [.mdb]. *)
Definition grows (s t : ScanState) : Prop :=
  exists new, fst t = (fst s ++ new)%list /\ Forall isMdb new.

(** An example directory tree: a home with a database, another one and a
    text file below it, and a directory that cannot be read. *)
Module ExampleScan.

Definition env : Env := mkEnv (Some "/home/ada") None.

Definition join (a b : string) : string := a ++ "/" ++ b.

Definition denied : JsError :=
  mkError "Error" "EACCES: permission denied" None.

Definition readdir (path : string) : Exc (list Dirent) :=
  if (path =? "/home/ada")%string
  then Ok [mkDirent "data.mdb" false; mkDirent "private" true;
           mkDirent "work" true; mkDirent "notes.txt" false]
  else if (path =? "/home/ada/work")%string
  then Ok [mkDirent "lock.mdb" false; mkDirent "DATA.MDB" false]
  else Throw denied.

Definition depth (path : string) : nat :=
  if (path =? "~")%string || (path =? "/home/ada")%string
  then 1%nat else 0%nat.

End ExampleScan.

(** ** Further vocabulary and examples *)

(** A request with its [path] parameter replaced. *)
Definition with_path (req : Request) (path : option string) : Request :=
  {| req_dbName := req_dbName req;
     req_query := req_query req;
     req_filterField := req_filterField req;
     req_filterOperator := req_filterOperator req;
     req_filterValue := req_filterValue req;
     req_sortBy := req_sortBy req;
     req_sortOrder := req_sortOrder req;
     req_limit := req_limit req;
     req_path := path |}.

(** The paths of the bookmarks that have a string for a path. *)
Definition stringPaths (bookmarks : list value) : list string :=
  flat_map (fun b => match get b "path" with
                     | Ok (VString p) => [p]
                     | _ => []
                     end) bookmarks.

(** A second example store, seen through [getRange] and [get]: a
    sub-database that cannot be opened, one that holds falsy values, and
    the products. *)
Module ExampleRecords.

Definition flags : list Found :=
  [ mkFound (VString "beta") (VBoolean false);
    mkFound (VString "retries") (VNumber zero);
    mkFound (VString "motd") (VString "");
    mkFound (VString "theme") (VString "dark") ].

Definition rootDb : RootDb Example.SubDb :=
  mkRootDb
    (Ok [VString "stale"; VString "flags"; VString "products"])
    (fun name =>
       if (name =? "products")%string then Ok (Ok Example.products)
       else if (name =? "flags")%string then Ok (Ok flags)
       else Throw Example.badDbi).

Definition open (path : string) : Exc (RootDb Example.SubDb) :=
  if (path =? "./data")%string then Ok rootDb else Throw Example.missing.

Definition getRange (subDb : Example.SubDb) : list value * option JsError :=
  match subDb with
  | Ok records => (List.map found_key records, None)
  | Throw e => ([], Some e)
  end.

(** An iteration that breaks off after two entries. *)
Definition getRangeBroken (subDb : Example.SubDb)
    : list value * option JsError :=
  (firstn 2 (fst (getRange subDb)), Some Example.readersFull).

Fixpoint valueOf (records : list Found) (key : string) : value :=
  match records with
  | r :: rest =>
      if (ToString (found_key r) =? key)%string then found_value r
      else valueOf rest key
  | [] => VUndefined
  end.

Definition subGet (subDb : Example.SubDb) (key : string) : Exc value :=
  match subDb with
  | Ok records => Ok (valueOf records key)
  | Throw e => Throw e
  end.

Definition rootGet (_ : RootDb Example.SubDb) (_ : string) : Exc value :=
  Ok VUndefined.

Definition records : Registry Example.SubDb -> Request -> JsonReply :=
  recordsHandler Example.SubDb open "./data" getRange.

Definition record
    : Registry Example.SubDb -> Request -> string -> JsonReply :=
  recordHandler Example.SubDb open "./data" subGet rootGet.

Definition saved (_ : list value) : Exc unit := Ok tt.

Definition diskFull : JsError :=
  mkError "Error" "ENOSPC: no space left on device" None.

Definition unsaved (_ : list value) : Exc unit := Throw diskFull.

Definition today : string := "2025-01-01T00:00:00.000Z".

Definition bookmark (name path : string) : value :=
  VObject [("name", VString name); ("path", VString path);
           ("createdAt", VString today)].

End ExampleRecords.

(** The mantissa of the number that holds a positive integer below
    [2^53] exactly: the integer shifted left to 53 bits. *)
Definition aligned (p : positive) : positive :=
  match (53 - Zpos (digits2_pos p))%Z with
  | Zpos k => Pos.iter xO p k
  | _ => p
  end.

(** * Properties *)

(** ** Strings *)

Lemma append_empty_r (s : string) : s ++ "" = s.
Proof. induction s as [|c s IH]; simpl; congruence. Qed.

Lemma append_assoc (a b c : string) : (a ++ b) ++ c = a ++ (b ++ c).
Proof. induction a as [|x a IH]; simpl; congruence. Qed.

Lemma in_all_ascii (c : ascii) : In c Spec.all_ascii.
Proof.
  unfold Spec.all_ascii.
  rewrite <- (ascii_nat_embedding c).
  apply in_map, in_seq.
  pose proof (nat_ascii_bounded c). lia.
Qed.

Lemma ascii_forall2 (p : ascii -> ascii -> bool) :
  forallb (fun c => forallb (p c) Spec.all_ascii) Spec.all_ascii = true ->
  forall c d, p c d = true.
Proof.
  intros H c d.
  rewrite forallb_forall in H.
  specialize (H c (in_all_ascii c)).
  rewrite forallb_forall in H.
  exact (H d (in_all_ascii d)).
Qed.

(** Lower-casing identifies exactly the code units that are the same
    letter. *)
Lemma lowerChar_same_letter (c d : ascii) :
  (JsString.lowerChar c =? JsString.lowerChar d)%char = Spec.same_letter c d.
Proof.
  apply Bool.eqb_prop.
  revert c d.
  apply (ascii_forall2
           (fun c d => Bool.eqb
              (JsString.lowerChar c =? JsString.lowerChar d)%char
              (Spec.same_letter c d))).
  vm_compute. reflexivity.
Qed.

Lemma toLowerCase_equal (a b : string) :
  (JsString.toLowerCase a =? JsString.toLowerCase b)%string
  = Spec.equal_ignoring_case a b.
Proof.
  revert b.
  induction a as [|c a IH]; intros [|d b]; simpl; try reflexivity.
  now rewrite lowerChar_same_letter, IH.
Qed.

Lemma ltb_lex (a b : string) :
  String.ltb a b = true <-> Spec.lex_lt a b.
Proof.
  unfold String.ltb.
  revert b.
  induction a as [|c a IH]; intros [|d b]; simpl.
  - split; [discriminate | inversion 1].
  - split; [constructor | reflexivity].
  - split; [discriminate | inversion 1].
  - unfold Ascii.compare.
    destruct (N.compare_spec (N_of_ascii c) (N_of_ascii d)) as [E|E|E].
    + assert (c = d) as ->.
      { rewrite <- (ascii_N_embedding c), <- (ascii_N_embedding d).
        now rewrite E. }
      rewrite IH. split.
      * now constructor.
      * inversion 1; subst; [unfold JsString.code in *; lia | assumption].
    + split; [now constructor | reflexivity].
    + split; [discriminate |].
      inversion 1; subst; unfold JsString.code in *; lia.
Qed.

Lemma ltb_false_lex (a b : string) :
  String.ltb a b = false <-> Spec.lex_le b a.
Proof.
  unfold Spec.lex_le.
  rewrite <- ltb_lex.
  unfold String.ltb.
  rewrite (String.compare_antisym b a).
  destruct (String.compare a b) eqn:E; simpl.
  - apply String.compare_eq_iff in E. subst. intuition.
  - split; [discriminate |].
    intros [-> | H]; [| discriminate].
    pose proof (String.compare_antisym a a) as A.
    rewrite E in A. discriminate.
  - intuition.
Qed.

(** ** Numbers

    Rounding an integer or a quotient of integers never gives NaN, so a
    text is NaN exactly when it is no numeric literal. *)

Lemma digits2_pos_bounds (p : positive) :
  2 ^ (Zpos (digits2_pos p) - 1) <= Zpos p < 2 ^ Zpos (digits2_pos p).
Proof.
  induction p as [p IH|p IH|]; cbn [digits2_pos].
  - rewrite Pos2Z.inj_succ.
    replace (Z.succ (Zpos (digits2_pos p)) - 1) with (Z.succ (Zpos (digits2_pos p) - 1)) by lia.
    rewrite !Z.pow_succ_r by lia. lia.
  - rewrite Pos2Z.inj_succ.
    replace (Z.succ (Zpos (digits2_pos p)) - 1) with (Z.succ (Zpos (digits2_pos p) - 1)) by lia.
    rewrite !Z.pow_succ_r by lia. lia.
  - simpl. lia.
Qed.

(** One step of the right shift halves the mantissa. *)
Lemma shr_1_half (mrs : shr_record) :
  0 <= shr_m mrs -> shr_m (shr_1 mrs) = shr_m mrs / 2.
Proof.
  destruct mrs as [m r s]. cbn [shr_m]. intros Hm.
  destruct m as [|[p|p|]|p]; cbn [shr_1 shr_m]; try lia;
    [reflexivity | | | reflexivity].
  - apply Z.div_unique with (r := 1); lia.
  - apply Z.div_unique with (r := 0); lia.
Qed.

Lemma iter_shr_1 (k : positive) (mrs : shr_record) :
  0 <= shr_m mrs ->
  shr_m (iter_pos shr_1 k mrs) = shr_m mrs / 2 ^ Zpos k.
Proof.
  revert mrs.
  induction k as [k IH|k IH|]; intros mrs Hm; cbn [iter_pos].
  - assert (0 <= shr_m (shr_1 mrs)) as H1
        by (rewrite shr_1_half by assumption; apply Z.div_pos; lia).
    assert (0 <= shr_m (iter_pos shr_1 k (shr_1 mrs))) as H2
        by (rewrite IH by assumption; apply Z.div_pos; lia).
    rewrite IH by assumption. rewrite IH by assumption.
    rewrite shr_1_half by assumption.
    rewrite !Z.div_div by lia.
    f_equal. rewrite Pos2Z.inj_xI.
    replace (2 * Zpos k + 1) with (1 + Zpos k + Zpos k) by lia.
    rewrite !Z.pow_add_r by lia. change (2 ^ 1) with 2. ring.
  - assert (0 <= shr_m (iter_pos shr_1 k mrs)) as H2
        by (rewrite IH by assumption; apply Z.div_pos; lia).
    rewrite IH by assumption. rewrite IH by assumption.
    rewrite !Z.div_div by lia.
    f_equal. rewrite Pos2Z.inj_xO.
    rewrite <- Z.pow_add_r by lia. f_equal. lia.
  - rewrite shr_1_half by assumption. reflexivity.
Qed.

(** The shift to the working exponent: by [n] places when [n] is
    positive, by none otherwise. *)
Lemma shr_fexp_m (m e : Z) (l : location) :
  0 <= m ->
  let n := fexp prec emax (Zdigits2 m + e) - e in
  shr_fexp prec emax m e l
  = (fst (shr_fexp prec emax m e l), if 0 <? n then e + n else e)
  /\ shr_m (fst (shr_fexp prec emax m e l))
     = if 0 <? n then m / 2 ^ n else m.
Proof.
  intros Hm n. unfold shr_fexp. fold n.
  assert (shr_m (shr_record_of_loc m l) = m) as Hr
      by (destruct l as [|[| |]]; reflexivity).
  destruct n as [|k|k]; cbn [shr fst Z.ltb Z.compare]; split;
    try reflexivity; try assumption.
  rewrite iter_shr_1 by lia. now rewrite Hr.
Qed.

Lemma shr_fexp_nonneg (m e : Z) (l : location) :
  0 <= m -> 0 <= shr_m (fst (shr_fexp prec emax m e l)).
Proof.
  intros Hm. destruct (shr_fexp_m m e l Hm) as [_ ->].
  destruct (Z.ltb_spec 0 (fexp prec emax (Zdigits2 m + e) - e)); [| lia].
  apply Z.div_pos; [lia | apply Z.pow_pos_nonneg; lia].
Qed.

Lemma round_nearest_even_bounds (m : Z) (l : location) :
  m <= round_nearest_even m l <= m + 1.
Proof.
  unfold round_nearest_even.
  destruct l as [|[| |]]; try lia.
  destruct (IntDef.Z.even m); lia.
Qed.

Lemma binary_round_aux_number (s : bool) (m e : Z) (l : location) :
  0 <= m -> isNaN (binary_round_aux prec emax s m e l) = false.
Proof.
  intros Hm. unfold binary_round_aux.
  destruct (shr_fexp_m m e l Hm) as [E1 M1]. rewrite E1.
  set (mrs' := fst (shr_fexp prec emax m e l)) in *.
  set (e' := if 0 <? _ then _ else e) in *. clearbody e'.
  assert (0 <= shr_m mrs') as H1 by now apply shr_fexp_nonneg.
  pose proof (round_nearest_even_bounds (shr_m mrs') (loc_of_shr_record mrs'))
    as Hr.
  set (m2 := round_nearest_even _ _) in *.
  assert (0 <= m2) as H2 by lia.
  destruct (shr_fexp_m m2 e' loc_Exact H2) as [E2 M2]. rewrite E2.
  set (mrs'' := fst (shr_fexp prec emax m2 e' loc_Exact)) in *.
  assert (0 <= shr_m mrs'') as H3 by now apply shr_fexp_nonneg.
  destruct (shr_m mrs''); try lia; [reflexivity |].
  destruct (_ <=? _); reflexivity.
Qed.

Lemma binary_normalize_number (z e : Z) (szero : bool) :
  isNaN (binary_normalize prec emax z e szero) = false.
Proof.
  destruct z as [|p|p]; cbn [binary_normalize]; [reflexivity | |];
    unfold binary_round;
    destruct (shl_align _ _ _) as [mz ez];
    apply binary_round_aux_number; lia.
Qed.

Lemma SFdiv_number (s t : bool) (p q : positive) (e f : Z) :
  isNaN (SFdiv prec emax (S754_finite s p e) (S754_finite t q f)) = false.
Proof.
  cbn [SFdiv]. unfold SFdiv_core_binary.
  set (m' := match _ with 0 => Zpos p | Zpos _ => _ | Zneg _ => 0 end).
  assert (0 <= m') as Hm.
  { subst m'. destruct (_ - _ - _); try lia. apply Z.shiftl_nonneg. lia. }
  pose proof (Z.div_pos m' (Zpos q) Hm eq_refl) as Hq.
  unfold Z.div in Hq.
  change IntDef.Z.div_eucl with Z.div_eucl.
  destruct (Z.div_eucl m' (Zpos q)) as [q' r']. cbn [fst] in Hq.
  now apply binary_round_aux_number.
Qed.

Lemma of_Z_number (z : Z) : isNaN (of_Z z) = false.
Proof. apply binary_normalize_number. Qed.

Lemma of_decimal_number (neg : bool) (m e : Z) :
  isNaN (of_decimal neg m e) = false.
Proof.
  unfold of_decimal.
  destruct m as [|p|p]; try reflexivity.
  destruct (0 <=? e).
  - apply binary_normalize_number.
  - apply SFdiv_number.
Qed.

(** ** Numeric literals *)

Lemma ascii_forall (p : ascii -> bool) :
  forallb p Spec.all_ascii = true -> forall c, p c = true.
Proof.
  intros H c. rewrite forallb_forall in H. exact (H c (in_all_ascii c)).
Qed.

Lemma reads_by_cases (val : ascii -> option Z) (radix : N) :
  forallb (fun c => Bool.eqb (match val c with Some _ => true | None => false end)
                             (Spec.isDigit radix c)) Spec.all_ascii = true ->
  reads val radix.
Proof.
  intros H c. apply Bool.eqb_prop. revert c. now apply ascii_forall.
Qed.

Lemma reads_decimal : reads digit_val 10.
Proof. apply reads_by_cases. vm_compute. reflexivity. Qed.

Lemma reads_hex : reads hex_val 16.
Proof. apply reads_by_cases. vm_compute. reflexivity. Qed.

Lemma reads_octal : reads (below 8 digit_val) 8.
Proof. apply reads_by_cases. vm_compute. reflexivity. Qed.

Lemma reads_binary : reads (below 2 digit_val) 2.
Proof. apply reads_by_cases. vm_compute. reflexivity. Qed.

(** Reading digits stops at the end of the text exactly when the text
    is digits only, and then every character was counted. *)
Lemma digits_acc_all (val : ascii -> option Z) (radix : N) (R : Z) :
  reads val radix ->
  forall (s : string) (v : Z) (n : nat),
    let '(_, n', rest) := digits_acc val R s v n in
    (rest =? "")%string = Spec.allDigits radix s
    /\ (Spec.allDigits radix s = true -> n' = (n + String.length s)%nat).
Proof.
  intros Hval s.
  induction s as [|c r IH]; intros v n; cbn [digits_acc Spec.allDigits].
  - split; [reflexivity | simpl; lia].
  - specialize (Hval c). destruct (val c) as [d|].
    + rewrite <- Hval. cbn [andb].
      specialize (IH (R * v + d) (S n)).
      destruct (digits_acc val R r (R * v + d) (S n)) as [[v' n'] rest].
      destruct IH as [IH1 IH2]. split; [assumption |].
      intros H. rewrite (IH2 H). simpl. lia.
    + rewrite <- Hval. split; [reflexivity | discriminate].
Qed.

Lemma digits_acc_digitString (val : ascii -> option Z) (radix : N) (R : Z)
    (s : string) :
  reads val radix ->
  let '(_, n, rest) := digits_acc val R s 0 0%nat in
  (0 <? n)%nat && (rest =? "")%string = Spec.digitString radix s.
Proof.
  intros Hval.
  pose proof (digits_acc_all val radix R Hval s 0 0%nat) as H.
  destruct (digits_acc val R s 0 0%nat) as [[v n] rest].
  destruct H as [H1 H2]. unfold Spec.digitString. rewrite H1.
  destruct (Spec.allDigits radix s); [| now rewrite !Bool.andb_false_r].
  rewrite (H2 eq_refl), !Bool.andb_true_r.
  destruct s; reflexivity.
Qed.

Lemma parse_radix_nan (val : ascii -> option Z) (radix : N) (R : Z)
    (s : string) :
  reads val radix ->
  isNaN (parse_radix val R s) = negb (Spec.digitString radix s).
Proof.
  intros Hval. unfold parse_radix.
  pose proof (digits_acc_digitString val radix R s Hval) as H.
  destruct (digits_acc val R s 0 0%nat) as [[v n] rest].
  rewrite H. destruct (Spec.digitString radix s); [| reflexivity].
  apply of_Z_number.
Qed.

(** Reading decimal digits takes the leading digits and leaves what
    follows them. *)
Lemma digits_acc_leading (s : string) (v : Z) (n : nat) :
  exists v',
    digits_acc digit_val 10 s v n
    = (v', (n + String.length (Spec.leadingDigits s))%nat,
       Spec.afterDigits s).
Proof.
  revert v n.
  induction s as [|c r IH]; intros v n;
    cbn [digits_acc Spec.leadingDigits Spec.afterDigits].
  - exists v. simpl. now rewrite Nat.add_0_r.
  - pose proof (reads_decimal c) as Hc. destruct (digit_val c) as [d|].
    + rewrite <- Hc.
      destruct (IH (10 * v + d) (S n)) as [v' ->]. exists v'.
      simpl. do 2 f_equal. lia.
    + rewrite <- Hc. exists v. simpl. now rewrite Nat.add_0_r.
Qed.

Lemma parse_exponent_some (s : string) :
  match parse_exponent s with Some _ => true | None => false end
  = Spec.exponentPart s.
Proof.
  destruct s as [|c r]; [reflexivity |].
  cbn [parse_exponent Spec.exponentPart].
  destruct ((c =? "e")%char || (c =? "E")%char); [| reflexivity].
  cbn [andb].
  destruct r as [|d t].
  - reflexivity.
  - unfold Spec.isSign.
    destruct (d =? "+")%char; cbn [orb].
    + pose proof (digits_acc_digitString digit_val 10%N 10 t reads_decimal) as H.
      destruct (digits_acc digit_val 10 t 0 0%nat) as [[v n] rest].
      rewrite H. now destruct (Spec.digitString 10 t).
    + destruct (d =? "-")%char.
      * pose proof (digits_acc_digitString digit_val 10%N 10 t reads_decimal)
          as H.
        destruct (digits_acc digit_val 10 t 0 0%nat) as [[v n] rest].
        rewrite H. now destruct (Spec.digitString 10 t).
      * pose proof (digits_acc_digitString digit_val 10%N 10 (String d t)
                      reads_decimal) as H.
        destruct (digits_acc digit_val 10 (String d t) 0 0%nat)
          as [[v n] rest].
        rewrite H. now destruct (Spec.digitString 10 (String d t)).
Qed.

Lemma empty_length (s : string) :
  (String.length s =? 0)%nat = (s =? "")%string.
Proof. now destruct s. Qed.

Lemma parse_unsigned_nan (neg : bool) (s : string) :
  isNaN (parse_unsigned neg s) = negb (Spec.unsignedLiteral s).
Proof.
  unfold parse_unsigned, Spec.unsignedLiteral, Spec.decimalLiteral.
  destruct (s =? "Infinity")%string; [reflexivity |]. cbn [orb].
  destruct (digits_acc_leading s 0 0%nat) as [i ->].
  cbn [Nat.add].
  destruct (Spec.afterDigits s) as [|c r].
  - rewrite Nat.add_0_r, empty_length.
    destruct (Spec.leadingDigits s =? "")%string; [reflexivity |].
    cbn [parse_exponent]. apply of_decimal_number.
  - destruct (c =? ".")%char.
    + destruct (digits_acc_leading r i 0%nat) as [m ->]. cbn [Nat.add].
      replace ((String.length (Spec.leadingDigits s)
                + String.length (Spec.leadingDigits r) =? 0)%nat)
        with ((Spec.leadingDigits s =? "")%string
              && (Spec.leadingDigits r =? "")%string)
        by (now destruct (Spec.leadingDigits s), (Spec.leadingDigits r)).
      rewrite <- Bool.negb_andb.
      destruct ((Spec.leadingDigits s =? "")%string
                && (Spec.leadingDigits r =? "")%string); [reflexivity |].
      cbn [negb andb].
      rewrite <- parse_exponent_some.
      destruct (parse_exponent (Spec.afterDigits r)); [| reflexivity].
      apply of_decimal_number.
    + rewrite Nat.add_0_r, empty_length.
      destruct (Spec.leadingDigits s =? "")%string; [reflexivity |].
      cbn [negb andb].
      rewrite <- parse_exponent_some.
      destruct (parse_exponent (String c r)); [| reflexivity].
      apply of_decimal_number.
Qed.

Lemma StringToNumber_nan (s : string) :
  JsString.trim s <> "" ->
  isNaN (StringToNumber s) = negb (Spec.parses_as_number s).
Proof.
  unfold StringToNumber, Spec.parses_as_number, Spec.numericLiteral,
    Spec.radixPrefix, Spec.isSign.
  destruct (JsString.trim s) as [|c r]; [congruence |]. intros _.
  destruct (Ascii.eqb_spec c "+") as [->|Hplus].
  { destruct r; apply parse_unsigned_nan. }
  destruct (Ascii.eqb_spec c "-") as [->|Hminus].
  { destruct r; apply parse_unsigned_nan. }
  cbn [orb].
  destruct r as [|x r']; [apply parse_unsigned_nan |].
  destruct (c =? "0")%char; cbn [andb]; [| apply parse_unsigned_nan].
  destruct ((x =? "x")%char || (x =? "X")%char);
    [apply parse_radix_nan, reads_hex |].
  destruct ((x =? "o")%char || (x =? "O")%char);
    [apply parse_radix_nan, reads_octal |].
  destruct ((x =? "b")%char || (x =? "B")%char);
    [apply parse_radix_nan, reads_binary |].
  apply parse_unsigned_nan.
Qed.

(** The test of the closure, [!isNaN(Number(s)) && s.trim() !== ""],
    holds exactly of the texts that parse as a number. *)
Lemma isNumeric_parses (s : string) :
  isNumeric s = Spec.parses_as_number s.
Proof.
  unfold isNumeric, Number.
  destruct (String.eqb_spec (JsString.trim s) "") as [E|E].
  - unfold Spec.parses_as_number. rewrite E. now rewrite Bool.andb_false_r.
  - rewrite (StringToNumber_nan s E), Bool.negb_involutive.
    now rewrite Bool.andb_true_r.
Qed.

(** ** The filter closure *)

Lemma typeof_number (v : value) :
  typeof v = "number" <-> exists x, v = VNumber x.
Proof.
  split.
  - destruct v as [| | | | | | |[? ?|?]]; simpl; try discriminate. eauto.
  - now intros [x ->].
Qed.

Lemma typeof_string (v : value) :
  typeof v = "string" <-> exists s, v = VString s.
Proof.
  split.
  - destruct v as [| | | | | | |[? ?|?]]; simpl; try discriminate. eauto.
  - now intros [x ->].
Qed.

(** The property read throws on [null] and [undefined] only. *)
Lemma get_defined (v : value) (f : string) :
  v <> VNull -> v <> VUndefined -> exists fieldValue, get v f = Ok fieldValue.
Proof.
  intros Hn Hu.
  destruct v; simpl; try congruence; eauto.
  - destruct (f =? "length")%string; eauto.
    destruct (array_index f) as [i|]; eauto.
    destruct (String.get i s); eauto.
  - destruct (f =? "length")%string; eauto.
    destruct (array_index f); eauto.
  - destruct (hasOwn fields f); eauto.
Qed.

(** C1, the claim as stated fails on two kinds of record.  On a [null]
    record the read of the field throws; on a record whose field is an
    object with a field of its own named [toString], the field is read
    and is neither a string nor a number, but its conversion to a string
    throws.  Either way the filter returns no verdict. *)
Lemma filter_equals_throws :
  ((forall verdict, filterPredicate "name" "=" "x" VNull <> Ok verdict)
   /\ exists e, filterPredicate "name" "=" "x" VNull = Throw e
                /\ err_name e = "TypeError")
  /\ (let owner := VObject [("toString", VString "Ann")] in
      let v := VObject [("owner", owner)] in
      get v "owner" = Ok owner
      /\ typeof owner <> "string"
      /\ typeof owner <> "number"
      /\ (forall verdict, filterPredicate "owner" "=" "Ann" v <> Ok verdict)
      /\ exists e, filterPredicate "owner" "=" "Ann" v = Throw e
                   /\ err_name e = "TypeError").
Proof.
  split; [split; [discriminate | eexists; split; reflexivity] |].
  split; [reflexivity |]. split; [discriminate |]. split; [discriminate |].
  split; [discriminate | eexists; split; reflexivity].
Qed.

(** C1, amended.  For a record that is neither [null] nor [undefined]
    the field [v[f]] is read, and with the operator ["="] the filter
    answers: for a string, its case-insensitive equality with the
    literal; for a number, when the literal parses as a number, its
    numeric equality with the parsed literal; in every other case, the
    equality of [String(v[f])] with the literal when that conversion
    returns, and it throws when the conversion does. *)
Theorem filter_equals (f s : string) (v : value) :
  v <> VNull -> v <> VUndefined ->
  exists fieldValue,
    get v f = Ok fieldValue
    /\ filterPredicate f "=" s v =
       match fieldValue with
       | VString x => Ok (Spec.equal_ignoring_case x s)
       | VNumber x =>
           if Spec.parses_as_number s then Ok (JsNumber.eq x (Number s))
           else (text <- StringOf fieldValue ;; Ok (text =? s)%string)
       | _ => text <- StringOf fieldValue ;; Ok (text =? s)%string
       end.
Proof.
  intros Hn Hu.
  destruct (get_defined v f Hn Hu) as [fieldValue Hget].
  exists fieldValue. split; [assumption |].
  unfold filterPredicate. rewrite Hget. simpl.
  rewrite isNumeric_parses.
  destruct fieldValue; try reflexivity.
  now rewrite toLowerCase_equal.
Qed.

Lemma filter_equals_witness :
  Example.product "Mouse" "89" <> VNull
  /\ Example.product "Mouse" "89" <> VUndefined
  /\ Spec.parses_as_number " 89.0" = true
  /\ filterPredicate "price" "=" " 89.0" (Example.product "Mouse" "89")
     = Ok true.
Proof.
  assert (Hn : Example.product "Mouse" "89" <> VNull) by discriminate.
  assert (Hu : Example.product "Mouse" "89" <> VUndefined) by discriminate.
  destruct (filter_equals "price" " 89.0" _ Hn Hu) as [fieldValue [Hget H]].
  split; [assumption |]. split; [assumption |]. split; [reflexivity |].
  rewrite H.
  vm_compute in Hget. injection Hget as <-.
  vm_compute. reflexivity.
Defined.

(** C2, the claim as stated fails on two kinds of record.  On a [null]
    record the read of the field throws.  On a record whose field is an
    object with a field of its own named [toString], the field is not a
    number, and its conversion to a string throws: none of the four
    operators compares anything. *)
Lemma filter_ordering_throws :
  ((forall verdict, filterPredicate "name" ">" "x" VNull <> Ok verdict)
   /\ exists e, filterPredicate "name" ">" "x" VNull = Throw e
                /\ err_name e = "TypeError")
  /\ (let owner := VObject [("toString", VString "Ann")] in
      let v := VObject [("owner", owner)] in
      get v "owner" = Ok owner
      /\ typeof owner <> "number"
      /\ exists e, err_name e = "TypeError"
                   /\ filterPredicate "owner" ">" "Ann" v = Throw e
                   /\ filterPredicate "owner" "<" "Ann" v = Throw e
                   /\ filterPredicate "owner" ">=" "Ann" v = Throw e
                   /\ filterPredicate "owner" "<=" "Ann" v = Throw e).
Proof.
  split; [split; [discriminate | eexists; split; reflexivity] |].
  split; [reflexivity |]. split; [discriminate |].
  eexists. repeat split; reflexivity.
Qed.

(** C2, amended.  When [v[f]] is read, is not a number, and its
    conversion [String(v[f])] returns a text, each ordering operator
    compares that text with the literal in the lexicographic order of
    their code units: [>] holds when the literal comes strictly first,
    [<] when the field does, [>=] and [<=] when it comes first or they
    are equal. *)
Theorem filter_ordering_lexicographic (f s text : string)
    (v fieldValue : value) :
  get v f = Ok fieldValue ->
  typeof fieldValue <> "number" ->
  StringOf fieldValue = Ok text ->
  (exists b, filterPredicate f ">" s v = Ok b
             /\ (b = true <-> Spec.lex_lt s text))
  /\ (exists b, filterPredicate f "<" s v = Ok b
                /\ (b = true <-> Spec.lex_lt text s))
  /\ (exists b, filterPredicate f ">=" s v = Ok b
                /\ (b = true <-> Spec.lex_le s text))
  /\ (exists b, filterPredicate f "<=" s v = Ok b
                /\ (b = true <-> Spec.lex_le text s)).
Proof.
  intros Hget Hty Htext.
  unfold filterPredicate. rewrite Hget. simpl.
  assert (forall (k1 : number -> Exc bool) (k2 : Exc bool),
             match fieldValue with
             | VNumber x => k1 x
             | _ => k2
             end = k2) as Hcase.
  { intros k1 k2. destruct fieldValue; try reflexivity.
    exfalso. apply Hty. reflexivity. }
  repeat split;
    (eexists; split; [rewrite Hcase, Htext; reflexivity |]).
  all: unfold JsString.gt, JsString.lt, JsString.ge, JsString.le;
       rewrite ?Bool.negb_true_iff; try apply ltb_lex; try apply ltb_false_lex.
Qed.

Lemma filter_ordering_lexicographic_witness :
  get (VObject [("name", VString "Mouse")]) "name" = Ok (VString "Mouse")
  /\ typeof (VString "Mouse") <> "number"
  /\ StringOf (VString "Mouse") = Ok "Mouse"
  /\ filterPredicate "name" ">" "Laptop"
       (VObject [("name", VString "Mouse")]) = Ok true
  /\ Spec.lex_lt "Laptop" "Mouse".
Proof.
  assert (Hg : get (VObject [("name", VString "Mouse")]) "name"
               = Ok (VString "Mouse")) by reflexivity.
  assert (Ht : typeof (VString "Mouse") <> "number") by discriminate.
  assert (Hs : StringOf (VString "Mouse") = Ok "Mouse") by reflexivity.
  destruct (filter_ordering_lexicographic "name" "Laptop" _ _ _ Hg Ht Hs)
    as [[b [Hb Hiff]] _].
  repeat split; try assumption; try reflexivity.
  apply (proj1 Hiff).
  simpl in Hb. injection Hb as <-. reflexivity.
Defined.

(** C3, the claim as stated fails: on a [null] record the read of the
    field throws before the operator is looked at, so the filter returns
    no verdict at all. *)
Lemma filter_unknown_operator_null :
  ~ In "~" Spec.known_operators
  /\ filterPredicate "name" "~" "x" VNull <> Ok true
  /\ exists e, filterPredicate "name" "~" "x" VNull = Throw e
                /\ err_name e = "TypeError".
Proof.
  split; [| split].
  - simpl. intuition discriminate.
  - discriminate.
  - eexists. split; reflexivity.
Qed.

(** C3, amended.  For a record that is neither [null] nor [undefined],
    an operator outside the six known ones makes the filter answer
    [true], whatever the field and the literal. *)
Theorem filter_unknown_operator (f op s : string) (v : value) :
  ~ In op Spec.known_operators ->
  v <> VNull -> v <> VUndefined ->
  filterPredicate f op s v = Ok true.
Proof.
  intros Hop Hn Hu.
  destruct (get_defined v f Hn Hu) as [fieldValue Hget].
  unfold filterPredicate. rewrite Hget. simpl.
  unfold Spec.known_operators in Hop. simpl in Hop.
  repeat match goal with
  | |- context [(op =? ?k)%string] =>
      destruct (String.eqb_spec op k) as [->|_]; [exfalso; tauto |]
  end.
  reflexivity.
Qed.

Lemma filter_unknown_operator_witness :
  filterPredicate "price" "~" "100" (Example.product "Mouse" "89") = Ok true.
Proof.
  apply filter_unknown_operator.
  - simpl. intuition discriminate.
  - discriminate.
  - discriminate.
Defined.

(** ** The sort closures *)

Lemma binary_round_aux_sign (m e : Z) (l : location) :
  Spec.sign_of (binary_round_aux prec emax true m e l)
  = option_map Spec.opposite
      (Spec.sign_of (binary_round_aux prec emax false m e l)).
Proof.
  unfold binary_round_aux.
  destruct (shr_fexp prec emax m e l) as [mrs' e'].
  destruct (shr_fexp prec emax _ e' loc_Exact) as [mrs'' e''].
  destruct (shr_m mrs''); try reflexivity.
  destruct (e'' <=? emax - prec); reflexivity.
Qed.

Lemma opposite_involutive (s : option Spec.Sign) :
  option_map Spec.opposite (option_map Spec.opposite s) = s.
Proof. now destruct s as [[| |]|]. Qed.

Lemma binary_normalize_opp (z e : Z) :
  Spec.sign_of (binary_normalize prec emax (- z) e false)
  = option_map Spec.opposite
      (Spec.sign_of (binary_normalize prec emax z e false)).
Proof.
  destruct z as [|p|p]; simpl; try reflexivity;
    unfold binary_round;
    destruct (shl_align p e _) as [mz ez].
  - apply binary_round_aux_sign.
  - rewrite binary_round_aux_sign. now rewrite opposite_involutive.
Qed.

(** Subtraction in the other order gives the opposite sign; a difference
    that is zero stays zero, and one that is NaN stays NaN. *)
Lemma sub_antisym (x y : number) :
  Spec.sign_of (JsNumber.sub y x)
  = option_map Spec.opposite (Spec.sign_of (JsNumber.sub x y)).
Proof.
  unfold JsNumber.sub.
  destruct x as [sx|sx| |sx mx ex], y as [sy|sy| |sy my ey];
    try (destruct sx); try (destruct sy); try reflexivity.
  all: unfold SFsub; rewrite (Z.min_comm ey ex);
       rewrite <- binary_normalize_opp;
       apply (f_equal (fun z => Spec.sign_of
                 (binary_normalize prec emax z (Z.min ex ey) false)));
       unfold cond_Zopp; lia.
Qed.

(** C4, the claim as stated fails.  Two records whose sort field is
    the same infinity are both numbers, yet their difference is NaN in
    either order: the two comparators return NaN, which has no sign and
    is not zero. *)
Lemma sort_direction_nan :
  let a := VObject [("name", VString "Sun"); ("mass", VNumber Infinity)] in
  let b := VObject [("name", VString "Sky"); ("mass", VNumber Infinity)] in
  exists asc desc,
    so_sort (buildSearchOptions Example.localeCompare "" "" "=" "" "mass"
               "asc" (of_Z 100)) = Some asc
    /\ so_sort (buildSearchOptions Example.localeCompare "" "" "=" "" "mass"
                  "desc" (of_Z 100)) = Some desc
    /\ get a "mass" = Ok (VNumber Infinity)
    /\ get b "mass" = Ok (VNumber Infinity)
    /\ typeof (VNumber Infinity) = "number"
    /\ asc a b = Ok NaN
    /\ desc a b = Ok NaN
    /\ Spec.sign_of NaN = None.
Proof.
  do 2 eexists. repeat split; reflexivity.
Qed.

Section Comparator.

Variable localeCompare : string -> string -> number.

(** The collation is a consistent comparison: swapping the two strings
    swaps the sign of the result. *)
Hypothesis localeCompare_antisym : forall x y,
  Spec.sign_of (localeCompare y x)
  = option_map Spec.opposite (Spec.sign_of (localeCompare x y)).

Lemma sort_closures_opposite (sortBy : string) (a b : value) :
  match sortAscending localeCompare sortBy a b,
        sortDescending localeCompare sortBy a b with
  | Ok up, Ok down =>
      Spec.sign_of down = option_map Spec.opposite (Spec.sign_of up)
  | Throw e, Throw e' => e = e'
  | _, _ => False
  end.
Proof.
  unfold sortAscending, sortDescending.
  destruct (get a sortBy) as [aVal|e]; simpl; [| reflexivity].
  destruct (get b sortBy) as [bVal|e]; simpl; [| reflexivity].
  destruct aVal, bVal; try reflexivity.
  - apply sub_antisym.
  - apply localeCompare_antisym.
Qed.

(** C4, amended.  With a sort field set, the request's direction
    ["asc"] and ["desc"] each produce a comparator; on two records whose
    sort fields are both strings or both numbers both comparators
    return.  When the ascending result has a sign, that is when it is
    not NaN, the descending result has the opposite one: negative for
    positive, positive for negative, zero exactly for zero.  When the
    ascending result is NaN, so is the descending one. *)
Theorem sort_direction_flips_sign
    (query filterField filterOperator filterValue sortBy : string)
    (limit : number) (a b aVal bVal : value) :
  JsString.truthy sortBy = true ->
  sortBy <> "__none__" ->
  get a sortBy = Ok aVal ->
  get b sortBy = Ok bVal ->
  (typeof aVal = "string" /\ typeof bVal = "string")
  \/ (typeof aVal = "number" /\ typeof bVal = "number") ->
  exists asc desc up down,
    so_sort (buildSearchOptions localeCompare query filterField
               filterOperator filterValue sortBy "asc" limit) = Some asc
    /\ so_sort (buildSearchOptions localeCompare query filterField
                  filterOperator filterValue sortBy "desc" limit) = Some desc
    /\ asc a b = Ok up
    /\ desc a b = Ok down
    /\ (forall s, Spec.sign_of up = Some s ->
                  Spec.sign_of down = Some (Spec.opposite s))
    /\ (Spec.sign_of down = Some Spec.Zero
        <-> Spec.sign_of up = Some Spec.Zero)
    /\ (isNaN up = true -> isNaN down = true).
Proof.
  intros Ht Hn Ha Hb Hty.
  simpl. rewrite Ht.
  destruct (String.eqb_spec sortBy "__none__") as [E|_]; [contradiction |].
  simpl.
  pose proof (sort_closures_opposite sortBy a b) as H.
  assert (exists up, sortAscending localeCompare sortBy a b = Ok up)
    as [up Hup].
  { unfold sortAscending. rewrite Ha, Hb. simpl.
    destruct aVal, bVal; eauto. }
  assert (exists down, sortDescending localeCompare sortBy a b = Ok down)
    as [down Hdown].
  { unfold sortDescending. rewrite Ha, Hb. simpl.
    destruct aVal, bVal; eauto. }
  rewrite Hup, Hdown in H.
  exists (sortAscending localeCompare sortBy),
         (sortDescending localeCompare sortBy), up, down.
  repeat split; try assumption.
  - intros s Hs. rewrite H, Hs. reflexivity.
  - rewrite H. destruct (Spec.sign_of up) as [[| |]|]; simpl; congruence.
  - intros E. rewrite H, E. reflexivity.
  - intros E. destruct up; try discriminate.
    destruct down; try discriminate. reflexivity.
Qed.

End Comparator.

Lemma example_localeCompare_antisym (x y : string) :
  Spec.sign_of (Example.localeCompare y x)
  = option_map Spec.opposite (Spec.sign_of (Example.localeCompare x y)).
Proof.
  unfold Example.localeCompare.
  rewrite (String.compare_antisym y x).
  destruct (String.compare x y); reflexivity.
Qed.

Lemma sort_direction_flips_sign_witness :
  exists asc desc up down,
    so_sort (buildSearchOptions Example.localeCompare "" "" "=" "" "price"
               "asc" (of_Z 100)) = Some asc
    /\ so_sort (buildSearchOptions Example.localeCompare "" "" "=" "" "price"
                  "desc" (of_Z 100)) = Some desc
    /\ asc (Example.product "Mouse" "89") (Example.product "Cable" "29")
       = Ok up
    /\ desc (Example.product "Mouse" "89") (Example.product "Cable" "29")
       = Ok down
    /\ (forall s, Spec.sign_of up = Some s ->
                  Spec.sign_of down = Some (Spec.opposite s))
    /\ (Spec.sign_of down = Some Spec.Zero
        <-> Spec.sign_of up = Some Spec.Zero)
    /\ (isNaN up = true -> isNaN down = true).
Proof.
  apply (sort_direction_flips_sign Example.localeCompare
           example_localeCompare_antisym "" "" "=" "" "price" (of_Z 100)
           (Example.product "Mouse" "89") (Example.product "Cable" "29")
           (Example.num "89") (Example.num "29")).
  - reflexivity.
  - discriminate.
  - reflexivity.
  - reflexivity.
  - right. split; reflexivity.
Defined.

(** ** The handler *)

Lemma flat_map_flat_map {A B C : Type} (f : B -> list C) (g : A -> list B)
    (l : list A) :
  flat_map f (flat_map g l) = flat_map (fun x => flat_map f (g x)) l.
Proof.
  induction l as [|x l IH]; simpl; [reflexivity |].
  now rewrite flat_map_app, IH.
Qed.

Lemma slice0_length {A : Type} (xs : list A) (limit : number) (N : Z) :
  ToIntegerOrInfinity limit = Integer N ->
  0 <= N ->
  (Z.of_nat (List.length (slice0 xs limit)) <= N)%Z.
Proof.
  intros HN Hpos.
  unfold slice0. rewrite HN.
  destruct (Z.ltb_spec N 0) as [Hlt|_]; [lia |].
  rewrite length_firstn. lia.
Qed.

Section HandlerFacts.

Variable localeCompare : string -> string -> number.
Variable SubDb : Type.
Variable search : SubDb -> SearchOptions -> Exc (list Found).
Variable open : string -> Exc (RootDb SubDb).
Variable DB_PATH : string.

Local Abbreviation handler := (searchHandler localeCompare SubDb search open DB_PATH).
Local Abbreviation options := (requestOptions localeCompare).
Local Abbreviation root := (openRoot SubDb open DB_PATH).

(** The loop appends, for each key in turn, the rows and the events of
    that key's turn. *)
Lemma processSubDbs_flat_map (rootDb : RootDb SubDb) (o : SearchOptions)
    (keys : list value) (results : list Row) (trace : list Event) :
  processSubDbs SubDb search rootDb o keys results trace
  = ((results
      ++ flat_map (fun k => fst (processSubDb SubDb search rootDb o k)) keys)%list,
     (trace
      ++ flat_map (fun k => snd (processSubDb SubDb search rootDb o k)) keys)%list).
Proof.
  revert results trace.
  induction keys as [|key keys IH]; intros results trace; simpl.
  - now rewrite !app_nil_r.
  - destruct (processSubDb SubDb search rootDb o key) as [rows events].
    rewrite IH. simpl. now rewrite <- !app_assoc.
Qed.

Lemma processSubDb_rows (rootDb : RootDb SubDb) (o : SearchOptions)
    (key : value) :
  fst (processSubDb SubDb search rootDb o key)
  = Spec.rowsOf search rootDb o key.
Proof.
  unfold processSubDb, Spec.rowsOf, Spec.outcome.
  destruct (openDB rootDb (ToString key)) as [subDb|e]; simpl;
    [| reflexivity].
  destruct (search subDb o) as [records|e]; [| reflexivity].
  destruct records; reflexivity.
Qed.

Lemma processSubDb_calls (rootDb : RootDb SubDb) (o : SearchOptions)
    (key : value) :
  searchCalls (snd (processSubDb SubDb search rootDb o key))
  = Spec.callsOf rootDb o key.
Proof.
  unfold processSubDb, Spec.callsOf, onSubDbError.
  destruct (openDB rootDb (ToString key)) as [subDb|e]; simpl.
  - destruct (search subDb o) as [records|e].
    + destruct records; reflexivity.
    + destruct (has_code e (-30790)); reflexivity.
  - destruct (has_code e (-30790)); reflexivity.
Qed.

Lemma processSubDb_failures (rootDb : RootDb SubDb) (o : SearchOptions)
    (key : value) :
  failureLines (snd (processSubDb SubDb search rootDb o key))
  = Spec.failuresOf search rootDb o key.
Proof.
  unfold processSubDb, Spec.failuresOf, Spec.outcome, onSubDbError,
    Spec.reported, Spec.MDB_READERS_FULL, JsString.truthy.
  destruct (openDB rootDb (ToString key)) as [subDb|e]; simpl.
  - destruct (search subDb o) as [records|e].
    + destruct records; reflexivity.
    + destruct (has_code e (-30790)); simpl; [reflexivity |].
      destruct (err_message e =? "")%string; reflexivity.
  - destruct (has_code e (-30790)); simpl; [reflexivity |].
    destruct (err_message e =? "")%string; reflexivity.
Qed.

(** The two ways out of the handler. *)
Lemma handler_ok (reg : Registry SubDb) (req : Request)
    (rootDb : RootDb SubDb) (keys : list value) :
  root reg req = Ok (rootDb, keys) ->
  let rows := flat_map (Spec.rowsOf search rootDb (options req)) keys in
  handler reg req
  = ({| resp_error := None;
        resp_results := slice0 rows (requestLimit req);
        resp_count := List.length (slice0 rows (requestLimit req)) |},
     ([LogSearchRequest (req_dbName req) (requestPath SubDb DB_PATH reg req);
       LogActiveDatabases (List.map fst reg);
       LogReading (requestPath SubDb DB_PATH reg req);
       LogSubDatabases (List.length keys)]
      ++ flat_map (fun k => snd (processSubDb SubDb search rootDb
                                   (options req) k)) keys
      ++ [LogTotal (List.length rows)])%list).
Proof.
  intros Hroot rows.
  unfold searchHandler. rewrite Hroot.
  rewrite processSubDbs_flat_map. simpl.
  assert (flat_map (fun k => fst (processSubDb SubDb search rootDb
                                    (options req) k)) keys = rows) as ->.
  { unfold rows. clear. induction keys as [|k keys IH]; simpl;
      [reflexivity |].
    now rewrite processSubDb_rows, IH. }
  reflexivity.
Qed.

Lemma handler_throw (reg : Registry SubDb) (req : Request) (e : JsError) :
  root reg req = Throw e ->
  handler reg req
  = ({| resp_error :=
          Some ("Failed to read database: " ++ error_toString e);
        resp_results := [];
        resp_count := 0 |},
     [LogSearchRequest (req_dbName req) (requestPath SubDb DB_PATH reg req);
      LogActiveDatabases (List.map fst reg);
      LogReading (requestPath SubDb DB_PATH reg req);
      LogErrorReading e]).
Proof.
  intros Hroot. unfold searchHandler. rewrite Hroot. reflexivity.
Qed.

(** The calls to the search library: none when the root store fails,
    otherwise one per sub-database that opens, in the order of the
    keys, each with the options of the request. *)
Lemma handler_calls (reg : Registry SubDb) (req : Request) :
  searchCalls (snd (handler reg req))
  = match root reg req with
    | Ok (rootDb, keys) => flat_map (Spec.callsOf rootDb (options req)) keys
    | Throw _ => []
    end.
Proof.
  destruct (root reg req) as [[rootDb keys]|e] eqn:Hroot.
  - rewrite (handler_ok _ _ _ _ Hroot). simpl.
    unfold searchCalls at 1.
    rewrite flat_map_app. fold (@searchCalls).
    rewrite flat_map_flat_map. simpl. rewrite app_nil_r.
    clear. induction keys as [|k keys IH]; simpl; [reflexivity |].
    rewrite <- IH. f_equal. apply processSubDb_calls.
  - rewrite (handler_throw _ _ _ Hroot). reflexivity.
Qed.

Lemma handler_calls_options (reg : Registry SubDb) (req : Request) :
  Forall (fun call => snd call = options req)
    (searchCalls (snd (handler reg req))).
Proof.
  rewrite handler_calls.
  destruct (root reg req) as [[rootDb keys]|e]; [| constructor].
  induction keys as [|k keys IH]; simpl; [constructor |].
  apply Forall_app. split; [| exact IH].
  unfold Spec.callsOf.
  destruct (openDB rootDb (ToString k)); repeat constructor.
Qed.

(** C5.  A request whose query text is empty is answered exactly as the
    same request without a query: the response and every effect are the
    same, and no [deepSearch] option reaches the search library, so no
    record is held back by the deep-search stage. *)
Theorem empty_query_is_no_query (reg : Registry SubDb) (req : Request) :
  handler reg (Spec.with_query req (Some ""))
  = handler reg (Spec.with_query req None)
  /\ so_deepSearch (options (Spec.with_query req (Some ""))) = None
  /\ Forall (fun call => so_deepSearch (snd call) = None)
       (searchCalls (snd (handler reg (Spec.with_query req (Some ""))))).
Proof.
  split; [reflexivity | split; [reflexivity |]].
  eapply Forall_impl; [| apply handler_calls_options].
  intros call ->. reflexivity.
Qed.

(** C6.  For a request whose limit is the integer [N >= 0], the
    response carries at most [N] records, however many the sub-databases
    yielded, and its [count] is the length of its [results]. *)
Theorem limit_bounds_results (reg : Registry SubDb) (req : Request)
    (N : Z) :
  ToIntegerOrInfinity (requestLimit req) = Integer N ->
  0 <= N ->
  Z.of_nat (List.length (resp_results (fst (handler reg req)))) <= N
  /\ resp_count (fst (handler reg req))
     = List.length (resp_results (fst (handler reg req))).
Proof.
  intros HN Hpos.
  destruct (root reg req) as [[rootDb keys]|e] eqn:Hroot.
  - rewrite (handler_ok _ _ _ _ Hroot). simpl. split; [| reflexivity].
    now apply slice0_length.
  - rewrite (handler_throw _ _ _ Hroot). simpl. split; [lia | reflexivity].
Qed.


(** C8.  When a sub-database throws on opening or on searching, the
    request still succeeds: the response holds the records of the
    sub-databases before and after it, and the failure adds one line to
    the console unless the code of the error is -30790, in which case
    it adds nothing. *)
Theorem failing_substore_is_skipped (reg : Registry SubDb) (req : Request)
    (rootDb : RootDb SubDb) (before after : list value) (key : value)
    (e : JsError) :
  root reg req = Ok (rootDb, (before ++ key :: after)%list) ->
  Spec.outcome search rootDb (options req) key = Throw e ->
  let rows := Spec.rowsOf search rootDb (options req) in
  let failures := Spec.failuresOf search rootDb (options req) in
  resp_error (fst (handler reg req)) = None
  /\ resp_results (fst (handler reg req))
     = slice0 (flat_map rows before ++ flat_map rows after)%list
         (requestLimit req)
  /\ failureLines (snd (handler reg req))
     = (flat_map failures before
        ++ (if has_code e Spec.MDB_READERS_FULL then []
            else [(ToString key, Spec.reported e)])
        ++ flat_map failures after)%list.
Proof.
  intros Hroot Hout rows failures.
  assert (rows key = []) as Hrows.
  { unfold rows, Spec.rowsOf. now rewrite Hout. }
  assert (failures key
          = if has_code e Spec.MDB_READERS_FULL then []
            else [(ToString key, Spec.reported e)]) as Hfail.
  { unfold failures, Spec.failuresOf. now rewrite Hout. }
  rewrite (handler_ok _ _ _ _ Hroot). simpl.
  split; [reflexivity | split].
  - f_equal. rewrite flat_map_app. simpl.
    fold rows. now rewrite Hrows.
  - unfold failureLines at 1. simpl.
    rewrite flat_map_app. fold failureLines.
    rewrite flat_map_flat_map. simpl. rewrite app_nil_r.
    rewrite (flat_map_ext _ failures)
      by (intros k; apply processSubDb_failures).
    rewrite flat_map_app. simpl. now rewrite Hfail.
Qed.

(** C9.  When opening the root store or listing its keys throws, the
    request fails as a whole: the response carries an error message
    that contains the text of the error and its message, an empty
    [results] array and the count 0. *)
Theorem root_failure_fails_request (reg : Registry SubDb) (req : Request)
    (e : JsError) :
  (acquireRoot SubDb open (registry_get SubDb reg (req_dbName req))
     (requestPath SubDb DB_PATH reg req) = Throw e
   \/ exists rootDb,
        acquireRoot SubDb open (registry_get SubDb reg (req_dbName req))
          (requestPath SubDb DB_PATH reg req) = Ok rootDb
        /\ getKeys rootDb = Throw e) ->
  exists message,
    fst (handler reg req)
    = {| resp_error := Some message; resp_results := []; resp_count := 0 |}
    /\ Spec.contains message (error_toString e)
    /\ Spec.contains message (err_message e).
Proof.
  intros H.
  assert (root reg req = Throw e) as Hroot.
  { unfold openRoot.
    destruct H as [-> | [rootDb [-> Hk]]]; simpl; [reflexivity |].
    now rewrite Hk. }
  rewrite (handler_throw _ _ _ Hroot). simpl.
  eexists. split; [reflexivity | split].
  - exists "Failed to read database: ", "".
    now rewrite append_empty_r.
  - unfold error_toString.
    destruct (err_name e =? "")%string.
    + exists "Failed to read database: ", "".
      now rewrite append_empty_r.
    + destruct (String.eqb_spec (err_message e) "") as [-> | _].
      * exists ("Failed to read database: " ++ err_name e), "".
        simpl. now rewrite !append_empty_r.
      * exists ("Failed to read database: " ++ err_name e ++ ": "), "".
        rewrite append_empty_r.
        now rewrite <- !append_assoc.
Qed.

(** C10.  When the filter value is empty, or the filter field is empty
    or ["__none__"], the options carry no filter, whatever the
    operator: no call to the search library receives one, and the
    request is answered exactly as the request without its three filter
    parameters.  A filter for a field equal to the empty string cannot
    be asked for. *)
Theorem empty_filter_is_no_filter (reg : Registry SubDb) (req : Request) :
  JsString.or_default (req_filterValue req) "" = ""
  \/ JsString.or_default (req_filterField req) "" = ""
  \/ JsString.or_default (req_filterField req) "" = "__none__" ->
  so_filters (options req) = None
  /\ Forall (fun call => so_filters (snd call) = None)
       (searchCalls (snd (handler reg req)))
  /\ handler reg req = handler reg (Spec.without_filter req).
Proof.
  intros H.
  assert (so_filters (options req) = None) as Hnone.
  { unfold requestOptions, buildSearchOptions. simpl.
    destruct H as [-> | [-> | ->]]; simpl;
      rewrite ?Bool.andb_false_r; reflexivity. }
  assert (options req = options (Spec.without_filter req)) as Heq.
  { unfold requestOptions, buildSearchOptions in *. simpl in *.
    rewrite Hnone. reflexivity. }
  split; [exact Hnone | split].
  - eapply Forall_impl; [| apply handler_calls_options].
    intros call ->. exact Hnone.
  - unfold searchHandler. rewrite <- Heq. reflexivity.
Qed.

End HandlerFacts.

(** ** The theorems at work on the example store *)

Lemma limit_bounds_results_witness :
  ToIntegerOrInfinity (requestLimit (Example.request "2")) = Integer 2
  /\ List.length
       (flat_map
          (Spec.rowsOf Example.search Example.rootDb
             (requestOptions Example.localeCompare (Example.request "2")))
          [VString "products"; VString "stale"; VString "busy";
           VString "users"]) = 4%nat
  /\ Z.of_nat (List.length
                 (resp_results (fst (Example.handler [] (Example.request "2")))))
     <= 2
  /\ resp_count (fst (Example.handler [] (Example.request "2")))
     = List.length
         (resp_results (fst (Example.handler [] (Example.request "2")))).
Proof.
  split; [reflexivity | split; [reflexivity |]].
  apply (limit_bounds_results Example.localeCompare Example.SubDb
           Example.search Example.open "./data" [] (Example.request "2") 2).
  - reflexivity.
  - lia.
Defined.

Lemma failing_substore_is_skipped_witness :
  resp_error (fst (Example.handler [] (Example.request "100"))) = None
  /\ List.map row_key
       (resp_results (fst (Example.handler [] (Example.request "100"))))
     = ["products:p1"; "products:p2"; "products:p3"; "users:u1"]
  /\ failureLines (snd (Example.handler [] (Example.request "100")))
     = [("stale", inl (err_message Example.badDbi))].
Proof.
  destruct (failing_substore_is_skipped Example.localeCompare Example.SubDb
              Example.search Example.open "./data" [] (Example.request "100")
              Example.rootDb [VString "products"]
              [VString "busy"; VString "users"] (VString "stale")
              Example.badDbi eq_refl eq_refl) as [He [Hr Hf]].
  unfold Example.handler.
  split; [exact He | split].
  - rewrite Hr. reflexivity.
  - rewrite Hf. reflexivity.
Defined.

Lemma root_failure_fails_request_witness :
  exists message,
    fst (Example.handler []
           (mkRequest "shop" None None None None None None None
              (Some "./nowhere")))
    = {| resp_error := Some message; resp_results := []; resp_count := 0 |}
    /\ Spec.contains message (error_toString Example.missing)
    /\ Spec.contains message (err_message Example.missing).
Proof.
  apply (root_failure_fails_request Example.localeCompare Example.SubDb
           Example.search Example.open "./data" []
           (mkRequest "shop" None None None None None None None
              (Some "./nowhere")) Example.missing).
  left. reflexivity.
Defined.

Lemma empty_filter_is_no_filter_witness :
  let req := mkRequest "shop" None (Some "name") (Some "=") (Some "")
               None None None None in
  so_filters (requestOptions Example.localeCompare req) = None
  /\ Forall (fun call => so_filters (snd call) = None)
       (searchCalls (snd (Example.handler [] req)))
  /\ Example.handler [] req = Example.handler [] (Spec.without_filter req).
Proof.
  apply (empty_filter_is_no_filter Example.localeCompare Example.SubDb
           Example.search Example.open "./data" []).
  left. reflexivity.
Defined.

(** The console stays silent for the sub-database that ran out of reader
    slots, and the search library is called with the cap 1000 for the
    limit 100. *)
Example busy_substore_is_silent :
  failureLines (snd (Example.handler [] (Example.request "100")))
  = [("stale", inl "MDB_BAD_DBI: The specified DBI handle was closed")]
  /\ List.map (fun call => (fst call, JsNumber.toString (so_limit (snd call))))
       (searchCalls (snd (Example.handler [] (Example.request "100"))))
     = [("products", "1000"); ("busy", "1000"); ("users", "1000")].
Proof. split; reflexivity. Qed.

(** Which literals count as numeric for the filter. *)
Example numeric_literals :
  List.map isNumeric ["100"; " 2.5e3 "; "0x1F"; "Infinity"; ""; "   "; "abc";
                      "NaN"; "12px"]
  = [true; true; true; true; false; false; false; false; false].
Proof. reflexivity. Qed.

(** The filter [price > 100] keeps the laptop only, [name = LAPTOP]
    matches it whatever the case, and a missing field reads as
    ["undefined"]. *)
Example filter_on_products :
  List.map (fun r => filterPredicate "price" ">" "100" (found_value r))
    Example.products = [Ok true; Ok false; Ok false]
  /\ filterPredicate "name" "=" "LAPTOP" (Example.product "Laptop" "2499")
     = Ok true
  /\ filterPredicate "stock" "=" "undefined" (Example.product "Laptop" "2499")
     = Ok true.
Proof. repeat split; reflexivity. Qed.

(** * Further properties *)

(** ** The filter closure, the other operators *)

(** X1.  The operator ["!="] is the exact complement of ["="]: on every
    record, field and literal it throws when ["="] throws and otherwise
    answers the opposite. *)
Theorem filter_not_equals_complement (f s : string) (v : value) :
  filterPredicate f "!=" s v
  = (b <- filterPredicate f "=" s v ;; Ok (negb b)).
Proof.
  unfold filterPredicate.
  destruct (get v f) as [fieldValue|e]; simpl; [| reflexivity].
  destruct fieldValue; simpl; try reflexivity;
    try (destruct (isNumeric s)); try reflexivity;
    match goal with
    | |- context [StringOf ?x] => destruct (StringOf x)
    end; reflexivity.
Qed.

(** X2.  On a field that holds a number, a literal that is not numeric
    fails every ordering operator: [>], [<], [>=] and [<=] all answer
    [false], so no two of them are complements of each other. *)
Theorem filter_number_against_text (f s : string) (v : value) (x : number) :
  get v f = Ok (VNumber x) ->
  isNumeric s = false ->
  filterPredicate f ">" s v = Ok false
  /\ filterPredicate f "<" s v = Ok false
  /\ filterPredicate f ">=" s v = Ok false
  /\ filterPredicate f "<=" s v = Ok false.
Proof.
  intros Hget Hnum.
  unfold filterPredicate. rewrite Hget. simpl. rewrite Hnum.
  repeat split.
Qed.

Lemma filter_number_against_text_witness :
  filterPredicate "price" ">" "cheap" (Example.product "Mouse" "89")
  = Ok false
  /\ filterPredicate "price" "<" "cheap" (Example.product "Mouse" "89")
     = Ok false
  /\ filterPredicate "price" ">=" "cheap" (Example.product "Mouse" "89")
     = Ok false
  /\ filterPredicate "price" "<=" "cheap" (Example.product "Mouse" "89")
     = Ok false.
Proof.
  apply (filter_number_against_text "price" "cheap"
           (Example.product "Mouse" "89") (Number "89")).
  - reflexivity.
  - reflexivity.
Defined.




Lemma lookup_missing (fields : list (string * value)) (f : string) :
  ~ In f (List.map fst fields) -> lookup fields f = VUndefined.
Proof.
  induction fields as [|[k x] fields IH]; simpl; [reflexivity |].
  intros H.
  destruct (String.eqb_spec k f) as [->|_]; [exfalso; auto |].
  apply IH. auto.
Qed.

Lemma hasOwn_missing (fields : list (string * value)) (f : string) :
  ~ In f (List.map fst fields) -> hasOwn fields f = false.
Proof.
  induction fields as [|[k x] fields IH]; simpl; [reflexivity |].
  intros H.
  destruct (String.eqb_spec k f) as [->|_]; [exfalso; auto |].
  apply IH. auto.
Qed.

(** X4.  On an object that has no field of the name, and inherits none
    of that name from its prototype, ["="] matches exactly the literal
    ["undefined"], letter for letter, and ["!="] everything else: the
    missing field is compared as the text [undefined].  (A name such as
    [toString], which every object inherits, reads as a function and is
    compared as its source text.) *)
Theorem filter_missing_field (fields : list (string * value)) (f s : string) :
  ~ In f (List.map fst fields) ->
  inherited KObject f = None ->
  filterPredicate f "=" s (VObject fields) = Ok (s =? "undefined")%string
  /\ filterPredicate f "!=" s (VObject fields)
     = Ok (negb (s =? "undefined")%string).
Proof.
  intros H Hproto.
  rewrite (String.eqb_sym s "undefined").
  unfold filterPredicate, get, inherit.
  rewrite (hasOwn_missing _ _ H), Hproto.
  split; reflexivity.
Qed.

Lemma filter_missing_field_witness :
  filterPredicate "stock" "=" "undefined"
    (VObject [("name", VString "Mouse")]) = Ok true
  /\ filterPredicate "stock" "!=" "undefined"
       (VObject [("name", VString "Mouse")]) = Ok false.
Proof.
  apply (filter_missing_field [("name", VString "Mouse")] "stock"
           "undefined").
  - simpl. intuition discriminate.
  - reflexivity.
Defined.

(** ** The search handler, limits and handles *)

Lemma slice0_nan {A : Type} (xs : list A) (limit : number) :
  isNaN limit = true -> slice0 xs limit = [].
Proof.
  destruct limit; try discriminate. intros _.
  unfold slice0. simpl.
  replace (Z.to_nat (Z.min 0 (Z.of_nat (List.length xs)))) with 0%nat by lia.
  reflexivity.
Qed.

Lemma in_firstn {A : Type} (n : nat) (xs : list A) (x : A) :
  In x (firstn n xs) -> In x xs.
Proof.
  revert xs. induction n as [|n IH]; intros [|y xs]; simpl; try tauto.
  intros [->|H]; [now left | right; now apply IH].
Qed.

Section HandlerLimits.

Variable localeCompare : string -> string -> number.
Variable SubDb : Type.
Variable search : SubDb -> SearchOptions -> Exc (list Found).
Variable open : string -> Exc (RootDb SubDb).
Variable DB_PATH : string.

Local Abbreviation handler :=
  (searchHandler localeCompare SubDb search open DB_PATH).
Local Abbreviation options := (requestOptions localeCompare).
Local Abbreviation root := (openRoot SubDb open DB_PATH).

(** X5.  A [limit] parameter that does not begin with a number is not
    rejected and does not fall back to the default: the handler answers
    with no record at all and the count 0, whatever the store holds. *)
Theorem unreadable_limit_returns_nothing (reg : Registry SubDb)
    (req : Request) :
  isNaN (requestLimit req) = true ->
  resp_results (fst (handler reg req)) = []
  /\ resp_count (fst (handler reg req)) = 0%nat.
Proof.
  intros Hnan.
  destruct (root reg req) as [[rootDb keys]|e] eqn:Hroot.
  - rewrite (handler_ok _ _ _ _ _ _ _ _ _ Hroot). simpl.
    rewrite (slice0_nan _ _ Hnan). split; reflexivity.
  - rewrite (handler_throw _ _ _ _ _ _ _ _ Hroot). split; reflexivity.
Qed.

(** X6.  A negative limit [-k] is not rejected either: the handler
    returns every row but the last [k]. *)
Theorem negative_limit_drops_the_tail (reg : Registry SubDb) (req : Request)
    (rootDb : RootDb SubDb) (keys : list value) (k : Z) :
  root reg req = Ok (rootDb, keys) ->
  ToIntegerOrInfinity (requestLimit req) = Integer (- k) ->
  0 < k ->
  let rows := flat_map (Spec.rowsOf search rootDb (options req)) keys in
  resp_results (fst (handler reg req))
  = firstn (List.length rows - Z.to_nat k) rows.
Proof.
  intros Hroot Hk Hpos rows.
  rewrite (handler_ok _ _ _ _ _ _ _ _ _ Hroot). simpl.
  fold rows. unfold slice0. rewrite Hk.
  destruct (Z.ltb_spec (- k) 0) as [_|H]; [| lia].
  f_equal. lia.
Qed.

(** X7.  A limit that covers every row drops none: the response holds
    all the rows of all the readable sub-databases, in the order of the
    keys, and counts them. *)
Theorem large_limit_returns_everything (reg : Registry SubDb) (req : Request)
    (rootDb : RootDb SubDb) (keys : list value) (N : Z) :
  root reg req = Ok (rootDb, keys) ->
  ToIntegerOrInfinity (requestLimit req) = Integer N ->
  let rows := flat_map (Spec.rowsOf search rootDb (options req)) keys in
  Z.of_nat (List.length rows) <= N ->
  resp_results (fst (handler reg req)) = rows
  /\ resp_count (fst (handler reg req)) = List.length rows.
Proof.
  intros Hroot HN rows Hlen.
  rewrite (handler_ok _ _ _ _ _ _ _ _ _ Hroot). simpl.
  fold rows.
  assert (slice0 rows (requestLimit req) = rows) as ->.
  { unfold slice0. rewrite HN.
    destruct (Z.ltb_spec N 0) as [H|_]; [lia |].
    apply firstn_all2. lia. }
  split; reflexivity.
Qed.

(** X8.  Every row of a response comes from a record that the search
    library returned for one of the sub-databases of the root store: its
    key is the name of that sub-database, a colon, and the key of the
    record, and its value is the value of the record. *)
Theorem rows_are_prefixed_records (reg : Registry SubDb) (req : Request)
    (rootDb : RootDb SubDb) (keys : list value) (row : Row) :
  root reg req = Ok (rootDb, keys) ->
  In row (resp_results (fst (handler reg req))) ->
  exists key records record,
    In key keys
    /\ Spec.outcome search rootDb (options req) key = Ok records
    /\ In record records
    /\ row_key row = ToString key ++ ":" ++ ToString (found_key record)
    /\ row_value row = found_value record.
Proof.
  intros Hroot Hin.
  rewrite (handler_ok _ _ _ _ _ _ _ _ _ Hroot) in Hin. simpl in Hin.
  unfold slice0 in Hin. apply in_firstn in Hin.
  apply in_flat_map in Hin. destruct Hin as [key [Hkey Hrow]].
  unfold Spec.rowsOf in Hrow.
  destruct (Spec.outcome search rootDb (options req) key)
    as [records|e] eqn:Hout; [| contradiction].
  apply in_map_iff in Hrow. destruct Hrow as [record [<- Hrec]].
  exists key, records, record. repeat split; assumption.
Qed.

(** X9.  For a database that was loaded with a handle, the handler reads
    through that handle: neither the [path] parameter of the request nor
    what opening a path would give changes the response. *)
Theorem loaded_handle_is_reused (open' : string -> Exc (RootDb SubDb))
    (reg : Registry SubDb) (req : Request) (config : DatabaseConfig SubDb)
    (rootDb : RootDb SubDb) (path : option string) :
  registry_get SubDb reg (req_dbName req) = Some config ->
  cfg_dbHandle SubDb config = Some rootDb ->
  fst (searchHandler localeCompare SubDb search open' DB_PATH reg
         (with_path req path))
  = fst (handler reg req).
Proof.
  intros Hreg Hhandle.
  unfold searchHandler, openRoot, acquireRoot. simpl.
  rewrite Hreg, Hhandle. simpl.
  destruct (getKeys rootDb) as [keys|e]; simpl; [| reflexivity].
  rewrite !processSubDbs_flat_map. reflexivity.
Qed.

End HandlerLimits.

Lemma unreadable_limit_returns_nothing_witness :
  isNaN (requestLimit (Example.request "all")) = true
  /\ resp_results (fst (Example.handler [] (Example.request "all"))) = []
  /\ resp_count (fst (Example.handler [] (Example.request "all"))) = 0%nat.
Proof.
  split; [reflexivity |].
  apply (unreadable_limit_returns_nothing Example.localeCompare
           Example.SubDb Example.search Example.open "./data" []
           (Example.request "all")).
  reflexivity.
Defined.

Lemma negative_limit_drops_the_tail_witness :
  List.map row_key
    (resp_results (fst (Example.handler [] (Example.request "-1"))))
  = ["products:p1"; "products:p2"; "products:p3"].
Proof.
  unfold Example.handler.
  rewrite (negative_limit_drops_the_tail Example.localeCompare
             Example.SubDb Example.search Example.open "./data" []
             (Example.request "-1") Example.rootDb
             [VString "products"; VString "stale"; VString "busy";
              VString "users"] 1 eq_refl eq_refl eq_refl).
  reflexivity.
Defined.

Lemma large_limit_returns_everything_witness :
  List.map row_key
    (resp_results (fst (Example.handler [] (Example.request "4"))))
  = ["products:p1"; "products:p2"; "products:p3"; "users:u1"]
  /\ resp_count (fst (Example.handler [] (Example.request "4"))) = 4%nat.
Proof.
  unfold Example.handler.
  destruct (large_limit_returns_everything Example.localeCompare
              Example.SubDb Example.search Example.open "./data" []
              (Example.request "4") Example.rootDb
              [VString "products"; VString "stale"; VString "busy";
               VString "users"] 4 eq_refl eq_refl) as [Hr Hc].
  - simpl. lia.
  - rewrite Hr, Hc. split; reflexivity.
Defined.

Lemma rows_are_prefixed_records_witness :
  exists key records record,
    In key [VString "products"; VString "stale"; VString "busy";
            VString "users"]
    /\ Spec.outcome Example.search Example.rootDb
         (requestOptions Example.localeCompare (Example.request "4")) key
       = Ok records
    /\ In record records
    /\ "users:u1" = ToString key ++ ":" ++ ToString (found_key record)
    /\ VObject [("name", VString "Ada")] = found_value record.
Proof.
  apply (rows_are_prefixed_records Example.localeCompare Example.SubDb
           Example.search Example.open "./data" [] (Example.request "4")
           Example.rootDb
           [VString "products"; VString "stale"; VString "busy";
            VString "users"]
           (mkRow "users:u1" (VObject [("name", VString "Ada")]))).
  - reflexivity.
  - simpl. tauto.
Defined.

Lemma loaded_handle_is_reused_witness :
  let reg := [("shop", mkConfig "shop" "/var/shop" ["products"; "users"]
                         (Some Example.rootDb))] in
  fst (searchHandler Example.localeCompare Example.SubDb Example.search
         (fun _ => Throw Example.missing) "./data" reg
         (with_path (Example.request "4") (Some "/elsewhere")))
  = fst (Example.handler reg (Example.request "4")).
Proof.
  apply (loaded_handle_is_reused Example.localeCompare Example.SubDb
           Example.search Example.open "./data"
           (fun _ => Throw Example.missing)
           [("shop", mkConfig "shop" "/var/shop" ["products"; "users"]
                       (Some Example.rootDb))]
           (Example.request "4")
           (mkConfig "shop" "/var/shop" ["products"; "users"]
              (Some Example.rootDb))
           Example.rootDb (Some "/elsewhere")).
  - reflexivity.
  - reflexivity.
Defined.

(** ** Home directories *)

Lemma substitute_plain (matched before after template : string) :
  StringOps.includes "$" template = false ->
  StringOps.substitute matched before after template = template.
Proof.
  induction template as [|d t IH]; simpl; [reflexivity |].
  destruct (d =? "$")%char; simpl; [discriminate |].
  intros H. now rewrite IH.
Qed.

Lemma prefix_tilde_slash (path : string) :
  StringOps.startsWith "~/" path = true ->
  exists rest, path = "~/" ++ rest.
Proof.
  unfold StringOps.startsWith.
  destruct path as [|a [|b rest]]; cbn [String.prefix]; try discriminate.
  - destruct (ascii_dec "~" a); discriminate.
  - destruct (ascii_dec "~" a) as [<-|]; [| discriminate].
    destruct (ascii_dec "/" b) as [<-|]; [| discriminate].
    intros _. now exists rest.
Qed.

Lemma expandPath_tilde (env : Env) :
  StringOps.includes "$" (homeDir env) = false ->
  expandPath env "~" = homeDir env.
Proof.
  intros Hplain. unfold expandPath, StringOps.replace. simpl.
  rewrite (substitute_plain _ _ _ _ Hplain). apply append_empty_r.
Qed.

Lemma expandPath_tilde_slash (env : Env) (rest : string) :
  StringOps.includes "$" (homeDir env) = false ->
  expandPath env ("~/" ++ rest) = homeDir env ++ "/" ++ rest.
Proof.
  intros Hplain. unfold expandPath, StringOps.replace. simpl.
  rewrite (substitute_plain _ _ _ _ Hplain).
  unfold StringOps.startsWith. now destruct rest.
Qed.

Lemma expandPath_other (env : Env) (path : string) :
  path <> "~" -> StringOps.startsWith "~/" path = false ->
  expandPath env path = path.
Proof.
  intros Hne Hstart. unfold expandPath. rewrite Hstart. simpl.
  destruct (String.eqb_spec path "~"); [contradiction | reflexivity].
Qed.

(** X10.  With a home directory that holds no dollar sign, [expandPath]
    maps ["~"] to the home directory and ["~/rest"] to the home directory
    followed by ["/rest"], and changes nothing else: not ["~user"], not a
    tilde further inside the path. *)
Theorem expandPath_home (env : Env) (path : string) :
  StringOps.includes "$" (homeDir env) = false ->
  (path = "~" -> expandPath env path = homeDir env)
  /\ (forall rest, path = "~/" ++ rest ->
        expandPath env path = homeDir env ++ "/" ++ rest)
  /\ (path <> "~" -> StringOps.startsWith "~/" path = false ->
        expandPath env path = path).
Proof.
  intros Hplain.
  repeat split.
  - intros ->. now apply expandPath_tilde.
  - intros rest ->. now apply expandPath_tilde_slash.
  - apply expandPath_other.
Qed.

Lemma expandPath_home_witness :
  expandPath (mkEnv (Some "/home/ada") None) "~/Documents/db"
  = "/home/ada/Documents/db"
  /\ expandPath (mkEnv (Some "/home/ada") None) "~ada/db" = "~ada/db".
Proof.
  destruct (expandPath_home (mkEnv (Some "/home/ada") None)
              "~/Documents/db" eq_refl) as [_ [Hhome _]].
  destruct (expandPath_home (mkEnv (Some "/home/ada") None)
              "~ada/db" eq_refl) as [_ [_ Hother]].
  split.
  - rewrite (Hhome "Documents/db" eq_refl). reflexivity.
  - apply Hother; [discriminate | reflexivity].
Defined.

(** X11.  When the home directory holds no dollar sign and does not
    itself begin with a tilde, expanding twice is expanding once: an
    expanded path is left alone. *)
Theorem expandPath_idempotent (env : Env) (path : string) :
  StringOps.includes "$" (homeDir env) = false ->
  StringOps.startsWith "~" (homeDir env) = false ->
  expandPath env (expandPath env path) = expandPath env path.
Proof.
  intros Hplain Hhome.
  assert (forall s, StringOps.startsWith "~" s = false ->
                    expandPath env s = s) as Hkeep.
  { intros s Hs. unfold expandPath.
    destruct s as [|a s]; [reflexivity |].
    unfold StringOps.startsWith in *. cbn [String.prefix] in *.
    destruct (ascii_dec "~" a) as [<-|Hne]; [destruct s; discriminate |].
    cbn [orb].
    destruct (String.eqb_spec (String a s) "~") as [E|_]; [| reflexivity].
    congruence. }
  destruct (String.eqb_spec path "~") as [->|Hne].
  - rewrite (expandPath_tilde env Hplain). now apply Hkeep.
  - destruct (StringOps.startsWith "~/" path) eqn:Hstart.
    + destruct (prefix_tilde_slash path Hstart) as [rest ->].
      rewrite (expandPath_tilde_slash env rest Hplain). apply Hkeep.
      unfold StringOps.startsWith in *.
      destruct (homeDir env) as [|a h]; [reflexivity |].
      cbn [String.prefix append] in *.
      destruct (ascii_dec "~" a); [destruct h; discriminate | reflexivity].
    + rewrite (expandPath_other env path Hne Hstart).
      now apply expandPath_other.
Qed.

Lemma expandPath_idempotent_witness :
  let env := mkEnv None (Some "C:/Users/ada") in
  expandPath env (expandPath env "~/Desktop") = expandPath env "~/Desktop".
Proof.
  apply (expandPath_idempotent (mkEnv None (Some "C:/Users/ada"))
           "~/Desktop").
  - reflexivity.
  - reflexivity.
Defined.

(** ** Splitting and joining keys *)

Lemma split_nonempty (c : ascii) (s : string) : StringOps.split c s <> [].
Proof.
  destruct s as [|d r]; simpl; [discriminate |].
  destruct (d =? c)%char; [discriminate |].
  destruct (StringOps.split c r); discriminate.
Qed.

Lemma join_split (c : ascii) (s : string) :
  StringOps.join c (StringOps.split c s) = s.
Proof.
  unfold StringOps.join.
  induction s as [|d r IH]; simpl; [reflexivity |].
  pose proof (split_nonempty c r) as Hne.
  destruct (Ascii.eqb_spec d c) as [->|_].
  - destruct (StringOps.split c r) as [|part parts]; [contradiction |].
    simpl in *. now rewrite IH.
  - destruct (StringOps.split c r) as [|part parts]; [contradiction |].
    destruct parts; simpl in *; now rewrite <- IH.
Qed.

Lemma split_prefix (c : ascii) (name rest : string) :
  StringOps.includes c name = false ->
  StringOps.split c (name ++ String c rest) = name :: StringOps.split c rest.
Proof.
  induction name as [|d name IH]; simpl.
  - intros _. now rewrite Ascii.eqb_refl.
  - destruct (d =? c)%char; simpl; [discriminate |].
    intros H. now rewrite (IH H).
Qed.

Lemma includes_separator (c : ascii) (name rest : string) :
  StringOps.includes c (name ++ String c rest) = true.
Proof.
  induction name as [|d name IH]; simpl.
  - now rewrite Ascii.eqb_refl.
  - rewrite IH. apply Bool.orb_true_r.
Qed.

(** ** Listing and reading records *)

Section RecordFacts.

Variable SubDb : Type.
Variable open : string -> Exc (RootDb SubDb).
Variable DB_PATH : string.
Variable getRange : SubDb -> list value * option JsError.
Variable subGet : SubDb -> string -> Exc value.
Variable rootGet : RootDb SubDb -> string -> Exc value.

Local Abbreviation records :=
  (recordsHandler SubDb open DB_PATH getRange).
Local Abbreviation record :=
  (recordHandler SubDb open DB_PATH subGet rootGet).
Local Abbreviation root := (openRoot SubDb open DB_PATH).
Local Abbreviation acquire reg req :=
  (acquireRoot SubDb open (registry_get SubDb reg (req_dbName req))
     (requestPath SubDb DB_PATH reg req)).

(** X12.  The listing of keys answers with at most [N] keys for an integer
    limit [N >= 0], and its [count] is the number of keys it carries:
    the first [N] of the keys of all sub-databases, in the order of the
    sub-databases. *)
Theorem records_listing_bounded (reg : Registry SubDb) (req : Request)
    (rootDb : RootDb SubDb) (keys : list value) (N : Z) :
  root reg req = Ok (rootDb, keys) ->
  ToIntegerOrInfinity (recordsLimit req) = Integer N ->
  0 <= N ->
  exists listed,
    records reg req
    = json [("keys", VArray (List.map VString listed));
            ("count", VNumber (of_Z (Z.of_nat (List.length listed))))]
    /\ listed = firstn (Z.to_nat N)
                  (flat_map (listSubDb SubDb getRange rootDb) keys)
    /\ Z.of_nat (List.length listed) <= N.
Proof.
  intros Hroot HN Hpos.
  unfold recordsHandler. rewrite Hroot.
  set (allKeys := flat_map (listSubDb SubDb getRange rootDb) keys).
  assert (slice0 allKeys (recordsLimit req)
          = firstn (Z.to_nat N) allKeys) as Hslice.
  { unfold slice0. rewrite HN.
    destruct (Z.ltb_spec N 0) as [H|_]; [lia |].
    destruct (Z.le_ge_cases N (Z.of_nat (List.length allKeys))) as [H|H].
    - now rewrite Z.min_l.
    - rewrite Z.min_r by assumption. rewrite Nat2Z.id.
      rewrite firstn_all. symmetry. apply firstn_all2. lia. }
  exists (firstn (Z.to_nat N) allKeys).
  rewrite Hslice. repeat split.
  rewrite length_firstn. lia.
Qed.

(** X13.  A sub-database whose iteration throws half-way is not dropped
    from the listing: the keys it yielded before the error stay, the
    sub-databases before and after it are listed as usual, and the
    reply says nothing of the error. *)
Theorem records_listing_keeps_partial (reg : Registry SubDb) (req : Request)
    (rootDb : RootDb SubDb) (before after : list value) (key : value)
    (subDb : SubDb) (yielded : list value) (e : JsError) :
  root reg req = Ok (rootDb, (before ++ key :: after)%list) ->
  openDB rootDb (ToString key) = Ok subDb ->
  getRange subDb = (yielded, Some e) ->
  let listed := flat_map (listSubDb SubDb getRange rootDb) in
  let kept :=
    (listed before
     ++ List.map (fun k => (ToString key ++ ":" ++ ToString k)%string) yielded
     ++ listed after)%list in
  records reg req
  = json [("keys", VArray (List.map VString (slice0 kept (recordsLimit req))));
          ("count",
           VNumber (of_Z (Z.of_nat
                            (List.length (slice0 kept (recordsLimit req))))))].
Proof.
  intros Hroot Hopen Hrange listed kept.
  unfold recordsHandler. rewrite Hroot.
  assert (flat_map (listSubDb SubDb getRange rootDb) (before ++ key :: after)
          = kept) as ->.
  { unfold kept, listed. rewrite flat_map_app. simpl.
    unfold listSubDb at 2. now rewrite Hopen, Hrange. }
  reflexivity.
Qed.

(** The record route on a key with a colon: the text before the first
    colon names the sub-database, the text after it is the key. *)
Lemma recordHandler_prefixed (reg : Registry SubDb) (req : Request)
    (name rest : string) :
  StringOps.includes ":" name = false ->
  record reg req (name ++ ":" ++ rest)
  = match (rootDb <- acquire reg req ;;
           subDb <- openDB rootDb name ;;
           subGet subDb rest) with
    | Ok value =>
        if truthy_value value
        then json [("key", VString (name ++ ":" ++ rest)); ("value", value)]
        else jsonError 404 "Record not found"
    | Throw error => serverError error
    end.
Proof.
  intros Hname.
  unfold recordHandler.
  change (name ++ ":" ++ rest) with (name ++ String ":" rest).
  rewrite includes_separator, (split_prefix _ _ _ Hname).
  cbn [List.hd List.tl]. rewrite join_split.
  destruct (acquire reg req) as [rootDb|e]; simpl; [| reflexivity].
  destruct (openDB rootDb name) as [subDb|e]; simpl; [| reflexivity].
  destruct (subGet subDb rest) as [value|e]; simpl; [| reflexivity].
  destruct (truthy_value value); reflexivity.
Qed.

(** X14.  A key of the form [name:recordKey], as the listing and the
    search hand them out, is taken apart at its first colon: for a name
    that holds no colon, whatever colons [recordKey] holds, the record
    route reads [recordKey] in the sub-database [name], and a truthy
    value found there is returned under the full key. *)
Theorem record_key_round_trip (reg : Registry SubDb) (req : Request)
    (rootDb : RootDb SubDb) (subDb : SubDb) (name recordKey : string)
    (value : value) :
  StringOps.includes ":" name = false ->
  acquire reg req = Ok rootDb ->
  openDB rootDb name = Ok subDb ->
  subGet subDb recordKey = Ok value ->
  truthy_value value = true ->
  record reg req (name ++ ":" ++ recordKey)
  = json [("key", VString (name ++ ":" ++ recordKey)); ("value", value)].
Proof.
  intros Hname Hroot Hopen Hget Htruthy.
  rewrite (recordHandler_prefixed _ _ _ _ Hname).
  rewrite Hroot. simpl. rewrite Hopen. simpl. rewrite Hget, Htruthy.
  reflexivity.
Qed.

(** X15.  A record that is stored with a falsy value ([0], [false], [""],
    [null]) cannot be read: the route answers 404 "Record not found",
    exactly as for a key that is not there. *)
Theorem falsy_record_is_not_found (reg : Registry SubDb) (req : Request)
    (rootDb : RootDb SubDb) (subDb : SubDb) (name recordKey : string)
    (value : value) :
  StringOps.includes ":" name = false ->
  acquire reg req = Ok rootDb ->
  openDB rootDb name = Ok subDb ->
  subGet subDb recordKey = Ok value ->
  truthy_value value = false ->
  record reg req (name ++ ":" ++ recordKey)
  = jsonError 404 "Record not found".
Proof.
  intros Hname Hroot Hopen Hget Hfalsy.
  rewrite (recordHandler_prefixed _ _ _ _ Hname).
  rewrite Hroot. simpl. rewrite Hopen. simpl. rewrite Hget, Hfalsy.
  reflexivity.
Qed.

(** X16.  A key with a colon is never searched for elsewhere: when the
    sub-database named before the colon cannot be opened, the route
    answers with status 500 and the text of the error. *)
Theorem prefixed_record_unopened (reg : Registry SubDb) (req : Request)
    (rootDb : RootDb SubDb) (name recordKey : string) (e : JsError) :
  StringOps.includes ":" name = false ->
  acquire reg req = Ok rootDb ->
  openDB rootDb name = Throw e ->
  record reg req (name ++ ":" ++ recordKey)
  = jsonError 500 (error_toString e).
Proof.
  intros Hname Hroot Hopen.
  rewrite (recordHandler_prefixed _ _ _ _ Hname).
  rewrite Hroot. simpl. rewrite Hopen. reflexivity.
Qed.

(** What one sub-database has for a key, as the loop of the record route
    sees it: a truthy value, or nothing (no value, a falsy one, or an
    error). *)
Lemma firstInSubDbs_skips (rootDb : RootDb SubDb) (key : string)
    (before after : list value) :
  Forall (fun k =>
            match (subDb <- openDB rootDb (ToString k) ;; subGet subDb key) with
            | Ok value => truthy_value value = false
            | Throw _ => True
            end) before ->
  firstInSubDbs SubDb subGet rootDb key (before ++ after)
  = firstInSubDbs SubDb subGet rootDb key after.
Proof.
  induction 1 as [|k before Hk _ IH]; simpl; [reflexivity |].
  destruct (subDb <- openDB rootDb (ToString k) ;; subGet subDb key)
    as [value|e]; [| exact IH].
  now rewrite Hk.
Qed.

(** X17.  For a key without a colon that the root store does not hold,
    the sub-databases are tried in the order of their keys and the first
    truthy value wins: sub-databases that throw, or hold nothing or a
    falsy value for the key, are passed over without a trace. *)
Theorem unprefixed_record_first_hit (reg : Registry SubDb) (req : Request)
    (rootDb : RootDb SubDb) (key : string) (rootValue : value)
    (before after : list value) (hit : value) (subDb : SubDb)
    (value : value) :
  StringOps.includes ":" key = false ->
  acquire reg req = Ok rootDb ->
  rootGet rootDb key = Ok rootValue ->
  truthy_value rootValue = false ->
  getKeys rootDb = Ok (before ++ hit :: after)%list ->
  Forall (fun k =>
            match (subDb <- openDB rootDb (ToString k) ;; subGet subDb key) with
            | Ok value => truthy_value value = false
            | Throw _ => True
            end) before ->
  openDB rootDb (ToString hit) = Ok subDb ->
  subGet subDb key = Ok value ->
  truthy_value value = true ->
  record reg req key = json [("key", VString key); ("value", value)].
Proof.
  intros Hkey Hroot Hrg Hrf Hkeys Hbefore Hopen Hget Htruthy.
  unfold recordHandler. rewrite Hkey, Hroot. simpl.
  rewrite Hrg. simpl. rewrite Hrf, Hkeys. simpl.
  rewrite (firstInSubDbs_skips _ _ _ _ Hbefore). simpl.
  rewrite Hopen. simpl. rewrite Hget, Htruthy. reflexivity.
Qed.

(** X18.  For a key without a colon, sub-databases that cannot be read
    never make the route fail: when the root store has no truthy value
    for the key and every sub-database throws or has none, the answer is
    404 "Record not found". *)
Theorem unprefixed_record_not_found (reg : Registry SubDb) (req : Request)
    (rootDb : RootDb SubDb) (key : string) (rootValue : value)
    (keys : list value) :
  StringOps.includes ":" key = false ->
  acquire reg req = Ok rootDb ->
  rootGet rootDb key = Ok rootValue ->
  truthy_value rootValue = false ->
  getKeys rootDb = Ok keys ->
  Forall (fun k =>
            match (subDb <- openDB rootDb (ToString k) ;; subGet subDb key) with
            | Ok value => truthy_value value = false
            | Throw _ => True
            end) keys ->
  record reg req key = jsonError 404 "Record not found".
Proof.
  intros Hkey Hroot Hrg Hrf Hkeys Hall.
  unfold recordHandler. rewrite Hkey, Hroot. simpl.
  rewrite Hrg. simpl. rewrite Hrf, Hkeys. simpl.
  rewrite <- (app_nil_r keys).
  rewrite (firstInSubDbs_skips _ _ _ _ Hall). reflexivity.
Qed.

End RecordFacts.

(** ** Bookmarks *)

Lemma inherit_path (k : Kind) : inherit k "path" = VUndefined.
Proof. destruct k; reflexivity. Qed.

Lemma falsy_has_no_path (b p : value) :
  truthy_value b = false -> get b "path" = Ok p -> p = VUndefined.
Proof.
  destruct b as [| |[|]|x|s|items|fields|n]; simpl; try discriminate;
    rewrite ?inherit_path; congruence.
Qed.

Lemma strict_equals_undefined (path : value) :
  strict_equals VUndefined path = true -> truthy_value path = false.
Proof. destruct path; simpl; congruence. Qed.

(** What [find] returns is an element of the array with that path. *)
Lemma findByPath_some (bookmarks : list value) (path found : value) :
  findByPath bookmarks path = Ok (Some found) ->
  truthy_value path = true ->
  truthy_value found = true.
Proof.
  induction bookmarks as [|b bookmarks IH]; simpl; [discriminate |].
  destruct (get b "path") as [p|e] eqn:Hp; simpl; [| discriminate].
  destruct (strict_equals p path) eqn:Heq; [| exact IH].
  intros [= <-] Hpath.
  destruct (truthy_value b) eqn:Hb; [reflexivity |].
  rewrite (falsy_has_no_path _ _ Hb Hp) in Heq.
  rewrite (strict_equals_undefined _ Heq) in Hpath. discriminate.
Qed.

Lemma findByPath_none (bookmarks : list value) (path : value) :
  findByPath bookmarks path = Ok None <->
  Forall (fun b => exists p, get b "path" = Ok p
                             /\ strict_equals p path = false) bookmarks.
Proof.
  induction bookmarks as [|b bookmarks IH]; simpl.
  - split; [constructor | reflexivity].
  - destruct (get b "path") as [p|e] eqn:Hp; simpl.
    + destruct (strict_equals p path) eqn:Heq.
      * split; [discriminate |].
        intros H. apply Forall_inv in H. destruct H as [q [Hq Hneq]].
        congruence.
      * rewrite IH. split.
        -- intros H. constructor; [eauto | exact H].
        -- intros H. now apply Forall_inv_tail in H.
    + split; [discriminate |].
      intros H. apply Forall_inv in H. destruct H as [q [Hq _]].
      congruence.
Qed.

Lemma findByPath_app (bookmarks more : list value) (path : value) :
  findByPath bookmarks path = Ok None ->
  findByPath (bookmarks ++ more) path = findByPath more path.
Proof.
  induction bookmarks as [|b bookmarks IH]; simpl; [reflexivity |].
  destruct (get b "path") as [p|e]; simpl; [| discriminate].
  destruct (strict_equals p path); [discriminate | exact IH].
Qed.

Lemma stringPaths_app (xs ys : list value) :
  stringPaths (xs ++ ys) = (stringPaths xs ++ stringPaths ys)%list.
Proof. apply flat_map_app. Qed.

Lemma stringPaths_absent (bookmarks : list value) (p : string) :
  findByPath bookmarks (VString p) = Ok None ->
  ~ In p (stringPaths bookmarks).
Proof.
  rewrite findByPath_none. intros Hall Hin.
  apply in_flat_map in Hin. destruct Hin as [b [Hb Hp]].
  rewrite Forall_forall in Hall.
  destruct (Hall b Hb) as [q [Hq Hneq]].
  rewrite Hq in Hp. destruct q; simpl in Hp; try contradiction.
  destruct Hp as [->|[]].
  simpl in Hneq. rewrite String.eqb_refl in Hneq. discriminate.
Qed.

Section BookmarkFacts.

Variable saveBookmarks : list value -> Exc unit.
Variable now : string.

Local Abbreviation post := (postBookmark saveBookmarks now).

(** The bookmark [POST] builds for a path and a name. *)
Local Abbreviation made name p :=
  (VObject [("name",
             if truthy_value name then name
             else VString (JsString.or_else (StringOps.lastPart "/" p)
                             "database"));
            ("path", VString p);
            ("createdAt", VString now)]).

(** When [POST] changes the array, it has appended one bookmark for the
    posted path, which no element had. *)
Lemma post_changes (bookmarks : list value) (body : Exc value) :
  snd (post bookmarks body) = bookmarks
  \/ exists b path named,
       body = Ok b
       /\ get b "path" = Ok path
       /\ truthy_value path = true
       /\ findByPath bookmarks path = Ok None
       /\ snd (post bookmarks body)
          = (bookmarks
             ++ [VObject [("name", named); ("path", path);
                          ("createdAt", VString now)]])%list.
Proof.
  unfold postBookmark.
  destruct body as [b|e]; simpl; [| now left].
  destruct (get b "path") as [path|e] eqn:Hpath; simpl; [| now left].
  destruct (get b "name") as [name|e]; simpl; [| now left].
  destruct (truthy_value path) eqn:Htruthy; simpl; [| now left].
  destruct (findByPath bookmarks path) as [[found|]|e] eqn:Hfind; simpl;
    [| | now left].
  - rewrite (findByPath_some _ _ _ Hfind Htruthy). now left.
  - destruct (bookmarkName name path) as [named|e]; simpl; [| now left].
    right. exists b, path, named.
    repeat split; try assumption.
    destruct (saveBookmarks _); reflexivity.
Qed.

(** X19.  Posting bookmarks never makes two bookmarks with the same
    string path: if the string paths of the array are pairwise distinct,
    they still are after any [POST], whatever its body and whether or
    not the file could be written. *)
Theorem bookmark_paths_stay_distinct (bookmarks : list value)
    (body : Exc value) :
  NoDup (stringPaths bookmarks) ->
  NoDup (stringPaths (snd (post bookmarks body))).
Proof.
  intros Hnodup.
  destruct (post_changes bookmarks body)
    as [-> | [b [path [named [_ [_ [_ [Hfind ->]]]]]]]]; [assumption |].
  rewrite stringPaths_app.
  apply NoDup_app; [assumption | |].
  - unfold stringPaths. simpl. destruct path; simpl; repeat constructor.
    simpl. tauto.
  - intros p Hin. unfold stringPaths. simpl.
    destruct path; simpl; try tauto.
    intros [<-|[]]. exact (stringPaths_absent _ _ Hfind Hin).
Qed.

(** X20.  A [POST] with a string path that no bookmark has appends one
    bookmark at the end and answers with it: it carries the posted path,
    the time of the request, and the posted name or, without one, the
    last segment of the path, or ["database"] when that is empty. *)
Theorem bookmark_is_appended (bookmarks : list value) (b name : value)
    (p : string) :
  get b "path" = Ok (VString p) ->
  p <> "" ->
  get b "name" = Ok name ->
  Forall (fun x => exists q, get x "path" = Ok q
                             /\ strict_equals q (VString p) = false)
    bookmarks ->
  saveBookmarks (bookmarks ++ [made name p]) = Ok tt ->
  post bookmarks (Ok b)
  = (json [("bookmark", made name p)], (bookmarks ++ [made name p])%list).
Proof.
  intros Hpath Hp Hname Hall Hsave.
  apply findByPath_none in Hall.
  unfold postBookmark. simpl.
  rewrite Hpath. simpl. rewrite Hname. simpl.
  destruct (String.eqb_spec p "") as [|_]; [contradiction |].
  unfold JsString.truthy.
  destruct (String.eqb_spec p "") as [|_]; [contradiction |].
  simpl. rewrite Hall. simpl.
  unfold bookmarkName.
  destruct (truthy_value name); simpl; rewrite Hsave; reflexivity.
Qed.

(** X21.  When the bookmarks file cannot be written, [POST] answers with
    status 500 and the text of the error, but the bookmark stays in the
    array the server keeps. *)
Theorem bookmark_kept_when_save_fails (bookmarks : list value)
    (b name : value) (p : string) (e : JsError) :
  get b "path" = Ok (VString p) ->
  p <> "" ->
  get b "name" = Ok name ->
  Forall (fun x => exists q, get x "path" = Ok q
                             /\ strict_equals q (VString p) = false)
    bookmarks ->
  saveBookmarks (bookmarks ++ [made name p]) = Throw e ->
  post bookmarks (Ok b)
  = (jsonError 500 (error_toString e), (bookmarks ++ [made name p])%list).
Proof.
  intros Hpath Hp Hname Hall Hsave.
  apply findByPath_none in Hall.
  unfold postBookmark. simpl.
  rewrite Hpath. simpl. rewrite Hname. simpl.
  unfold JsString.truthy.
  destruct (String.eqb_spec p "") as [|_]; [contradiction |].
  simpl. rewrite Hall. simpl.
  unfold bookmarkName.
  destruct (truthy_value name); simpl; rewrite Hsave; reflexivity.
Qed.

(** X22.  Once a [POST] with a string path has changed the array, the
    same [POST] again is refused with 400 "Already bookmarked" and
    changes nothing, also when the first one could not write the
    file. *)
Theorem bookmark_twice_is_refused (bookmarks : list value) (b : value)
    (p : string) :
  get b "path" = Ok (VString p) ->
  snd (post bookmarks (Ok b)) <> bookmarks ->
  post (snd (post bookmarks (Ok b))) (Ok b)
  = (jsonError 400 "Already bookmarked", snd (post bookmarks (Ok b))).
Proof.
  intros Hpath Hchanged.
  destruct (post_changes bookmarks (Ok b))
    as [H | [b' [path [named [[= <-] [Hpath' [Htruthy [Hfind ->]]]]]]]];
    [contradiction |].
  rewrite Hpath in Hpath'. injection Hpath' as <-.
  unfold postBookmark at 1. simpl.
  rewrite Hpath. simpl.
  destruct (get b "name") as [name|e] eqn:Hname.
  - simpl. simpl in Htruthy. rewrite Htruthy. simpl.
    rewrite (findByPath_app _ _ _ Hfind). simpl.
    rewrite String.eqb_refl. reflexivity.
  - exfalso. apply Hchanged.
    unfold postBookmark. simpl. rewrite Hpath. simpl. rewrite Hname.
    reflexivity.
Qed.

End BookmarkFacts.

(** ** The further theorems at work on the example stores *)

Lemma records_listing_bounded_witness :
  ExampleRecords.records [] (Example.request "2")
  = json [("keys", VArray [VString "flags:beta"; VString "flags:retries"]);
          ("count", VNumber (of_Z 2))].
Proof.
  destruct (records_listing_bounded Example.SubDb ExampleRecords.open
              "./data" ExampleRecords.getRange [] (Example.request "2")
              ExampleRecords.rootDb
              [VString "stale"; VString "flags"; VString "products"] 2
              eq_refl eq_refl) as [listed [Hreply [-> _]]]; [lia |].
  exact Hreply.
Defined.

Lemma records_listing_keeps_partial_witness :
  recordsHandler Example.SubDb ExampleRecords.open "./data"
    ExampleRecords.getRangeBroken [] (Example.request "10")
  = json [("keys", VArray [VString "flags:beta"; VString "flags:retries";
                           VString "products:p1"; VString "products:p2"]);
          ("count", VNumber (of_Z 4))].
Proof.
  rewrite (records_listing_keeps_partial Example.SubDb ExampleRecords.open
             "./data" ExampleRecords.getRangeBroken [] (Example.request "10")
             ExampleRecords.rootDb [VString "stale"] [VString "products"]
             (VString "flags") (Ok ExampleRecords.flags)
             [VString "beta"; VString "retries"] Example.readersFull
             eq_refl eq_refl eq_refl).
  reflexivity.
Defined.

Lemma record_key_round_trip_witness :
  ExampleRecords.record [] (Example.request "10") "products:p2"
  = json [("key", VString "products:p2");
          ("value", Example.product "Mouse" "89")].
Proof.
  apply (record_key_round_trip Example.SubDb ExampleRecords.open "./data"
           ExampleRecords.subGet ExampleRecords.rootGet []
           (Example.request "10") ExampleRecords.rootDb
           (Ok Example.products) "products" "p2"
           (Example.product "Mouse" "89")); reflexivity.
Defined.

Lemma falsy_record_is_not_found_witness :
  ExampleRecords.record [] (Example.request "10") "flags:retries"
  = jsonError 404 "Record not found".
Proof.
  apply (falsy_record_is_not_found Example.SubDb ExampleRecords.open
           "./data" ExampleRecords.subGet ExampleRecords.rootGet []
           (Example.request "10") ExampleRecords.rootDb
           (Ok ExampleRecords.flags) "flags" "retries" (VNumber zero));
    reflexivity.
Defined.

Lemma prefixed_record_unopened_witness :
  ExampleRecords.record [] (Example.request "10") "stale:p1"
  = jsonError 500 (error_toString Example.badDbi).
Proof.
  apply (prefixed_record_unopened Example.SubDb ExampleRecords.open
           "./data" ExampleRecords.subGet ExampleRecords.rootGet []
           (Example.request "10") ExampleRecords.rootDb "stale" "p1"
           Example.badDbi); reflexivity.
Defined.

Lemma unprefixed_record_first_hit_witness :
  ExampleRecords.record [] (Example.request "10") "p3"
  = json [("key", VString "p3"); ("value", Example.product "Cable" "29")].
Proof.
  apply (unprefixed_record_first_hit Example.SubDb ExampleRecords.open
           "./data" ExampleRecords.subGet ExampleRecords.rootGet []
           (Example.request "10") ExampleRecords.rootDb "p3" VUndefined
           [VString "stale"; VString "flags"] [] (VString "products")
           (Ok Example.products) (Example.product "Cable" "29"));
    try reflexivity.
  repeat constructor.
Defined.

Lemma unprefixed_record_not_found_witness :
  ExampleRecords.record [] (Example.request "10") "motd"
  = jsonError 404 "Record not found".
Proof.
  apply (unprefixed_record_not_found Example.SubDb ExampleRecords.open
           "./data" ExampleRecords.subGet ExampleRecords.rootGet []
           (Example.request "10") ExampleRecords.rootDb "motd" VUndefined
           [VString "stale"; VString "flags"; VString "products"]);
    try reflexivity.
  repeat constructor.
Defined.

Lemma bookmark_paths_stay_distinct_witness :
  NoDup (stringPaths
           (snd (postBookmark ExampleRecords.unsaved ExampleRecords.today
                   [ExampleRecords.bookmark "shop" "/var/shop"]
                   (Ok (VObject [("path", VString "/var/blog")]))))).
Proof.
  apply (bookmark_paths_stay_distinct ExampleRecords.unsaved
           ExampleRecords.today [ExampleRecords.bookmark "shop" "/var/shop"]
           (Ok (VObject [("path", VString "/var/blog")]))).
  repeat constructor. simpl. tauto.
Defined.

Lemma bookmark_is_appended_witness :
  postBookmark ExampleRecords.saved ExampleRecords.today
    [ExampleRecords.bookmark "shop" "/var/shop"]
    (Ok (VObject [("path", VString "/var/blog")]))
  = (json [("bookmark", ExampleRecords.bookmark "blog" "/var/blog")],
     [ExampleRecords.bookmark "shop" "/var/shop";
      ExampleRecords.bookmark "blog" "/var/blog"]).
Proof.
  apply (bookmark_is_appended ExampleRecords.saved ExampleRecords.today
           [ExampleRecords.bookmark "shop" "/var/shop"]
           (VObject [("path", VString "/var/blog")]) VUndefined "/var/blog").
  - reflexivity.
  - discriminate.
  - reflexivity.
  - repeat constructor. eexists. split; reflexivity.
  - reflexivity.
Defined.

Lemma bookmark_kept_when_save_fails_witness :
  postBookmark ExampleRecords.unsaved ExampleRecords.today []
    (Ok (VObject [("path", VString "/var/blog/"); ("name", VString "")]))
  = (jsonError 500 "Error: ENOSPC: no space left on device",
     [ExampleRecords.bookmark "database" "/var/blog/"]).
Proof.
  apply (bookmark_kept_when_save_fails ExampleRecords.unsaved
           ExampleRecords.today []
           (VObject [("path", VString "/var/blog/"); ("name", VString "")])
           (VString "") "/var/blog/" ExampleRecords.diskFull).
  - reflexivity.
  - discriminate.
  - reflexivity.
  - constructor.
  - reflexivity.
Defined.

Lemma bookmark_twice_is_refused_witness :
  let body := Ok (VObject [("path", VString "/var/blog")]) in
  let once := snd (postBookmark ExampleRecords.unsaved ExampleRecords.today
                     [] body) in
  postBookmark ExampleRecords.unsaved ExampleRecords.today once body
  = (jsonError 400 "Already bookmarked", once).
Proof.
  apply (bookmark_twice_is_refused ExampleRecords.unsaved
           ExampleRecords.today []
           (VObject [("path", VString "/var/blog")]) "/var/blog").
  - reflexivity.
  - discriminate.
Defined.

(** ** Integers as numbers

    An integer below [2^53] is held exactly: comparing two such numbers
    compares the integers, and the integer is read back unchanged. *)

Lemma iter_xO_value (p k : positive) :
  Zpos (Pos.iter xO p k) = Zpos p * 2 ^ Zpos k.
Proof.
  induction k as [|k IH] using Pos.peano_ind.
  - simpl. lia.
  - rewrite Pos.iter_succ, Pos2Z.inj_succ, Z.pow_succ_r by lia.
    rewrite Pos2Z.inj_xO, IH. lia.
Qed.

Lemma iter_xO_digits (p k : positive) :
  digits2_pos (Pos.iter xO p k) = (digits2_pos p + k)%positive.
Proof.
  induction k as [|k IH] using Pos.peano_ind.
  - simpl. lia.
  - rewrite Pos.iter_succ. cbn [digits2_pos]. rewrite IH. lia.
Qed.

Lemma aligned_digits (p : positive) :
  Zpos (digits2_pos p) <= 53 -> Zpos (digits2_pos (aligned p)) = 53.
Proof.
  intros H. unfold aligned.
  destruct (53 - Zpos (digits2_pos p)) as [|k|k] eqn:E; try lia.
  rewrite iter_xO_digits. lia.
Qed.

Lemma aligned_value (p : positive) :
  Zpos (digits2_pos p) <= 53 ->
  Zpos (aligned p) = Zpos p * 2 ^ (53 - Zpos (digits2_pos p)).
Proof.
  intros H. unfold aligned.
  destruct (53 - Zpos (digits2_pos p)) as [|k|k] eqn:E; try lia.
  apply iter_xO_value.
Qed.

Lemma binary_round_integer (s : bool) (p : positive) :
  Zpos (digits2_pos p) <= 53 ->
  binary_round prec emax s p 0
  = S754_finite s (aligned p) (Zpos (digits2_pos p) - 53).
Proof.
  intros Hd.
  unfold binary_round.
  assert (fexp prec emax (Zpos (digits2_pos p) + 0)
          = Zpos (digits2_pos p) - 53) as Hf.
  { unfold fexp, emin, prec, emax. lia. }
  rewrite Hf.
  assert (shl_align p 0 (Zpos (digits2_pos p) - 53)
          = (aligned p, Zpos (digits2_pos p) - 53)) as Hs.
  { unfold shl_align, aligned.
    replace (Zpos (digits2_pos p) - 53 - 0)
      with (- (53 - Zpos (digits2_pos p))) by lia.
    remember (Zpos (digits2_pos p) - 53) as e eqn:He.
    destruct (53 - Zpos (digits2_pos p)) as [|k|k] eqn:E; cbn [Z.opp];
      try lia; [f_equal; lia | reflexivity]. }
  rewrite Hs.
  unfold binary_round_aux, shr_fexp.
  cbn [Zdigits2].
  rewrite (aligned_digits p Hd).
  assert (fexp prec emax (53 + (Zpos (digits2_pos p) - 53))
          - (Zpos (digits2_pos p) - 53) = 0) as Hz.
  { unfold fexp, emin, prec, emax. lia. }
  rewrite Hz.
  cbn [shr shr_record_of_loc shr_m loc_of_shr_record round_nearest_even
         Zdigits2].
  rewrite (aligned_digits p Hd). rewrite Hz.
  cbn [shr shr_record_of_loc shr_m].
  unfold emax, prec.
  destruct (Z.leb_spec (Zpos (digits2_pos p) - 53) (1024 - 53));
    [reflexivity | lia].
Qed.

Lemma of_Z_pos (p : positive) :
  Zpos (digits2_pos p) <= 53 ->
  of_Z (Zpos p) = S754_finite false (aligned p) (Zpos (digits2_pos p) - 53).
Proof. apply binary_round_integer. Qed.

Lemma of_Z_neg (p : positive) :
  Zpos (digits2_pos p) <= 53 ->
  of_Z (Zneg p) = S754_finite true (aligned p) (Zpos (digits2_pos p) - 53).
Proof. apply binary_round_integer. Qed.

Lemma digits_small (p : positive) :
  Zpos p < 2 ^ 53 -> Zpos (digits2_pos p) <= 53.
Proof.
  intros H.
  pose proof (digits2_pos_bounds p) as [Hlo _].
  destruct (Z.le_gt_cases (Zpos (digits2_pos p)) 53) as [|Hgt]; [assumption |].
  assert (2 ^ 53 <= 2 ^ (Zpos (digits2_pos p) - 1)) by (apply Z.pow_le_mono_r; lia).
  lia.
Qed.

Lemma compare_of_Z_pos (p q : positive) :
  Zpos p < 2 ^ 53 -> Zpos q < 2 ^ 53 ->
  SFcompare (of_Z (Zpos p)) (of_Z (Zpos q)) = Some (Zpos p ?= Zpos q).
Proof.
  intros Hp Hq.
  pose proof (digits_small p Hp) as Hdp.
  pose proof (digits_small q Hq) as Hdq.
  rewrite (of_Z_pos p Hdp), (of_Z_pos q Hdq).
  cbn [SFcompare]. f_equal.
  pose proof (digits2_pos_bounds p) as [Hplo Hphi].
  pose proof (digits2_pos_bounds q) as [Hqlo Hqhi].
  destruct (Z.compare_spec (Zpos (digits2_pos p) - 53) (Zpos (digits2_pos q) - 53))
    as [E|E|E].
  - change (Pos.compare_cont Eq (aligned p) (aligned q))
      with (Zpos (aligned p) ?= Zpos (aligned q)).
    rewrite (aligned_value p Hdp), (aligned_value q Hdq).
    replace (Zpos (digits2_pos q)) with (Zpos (digits2_pos p)) by lia.
    symmetry. apply Zmult_compare_compat_r.
    apply Z.lt_gt, Z.pow_pos_nonneg; lia.
  - symmetry. apply Z.compare_lt_iff.
    assert (2 ^ Zpos (digits2_pos p) <= 2 ^ (Zpos (digits2_pos q) - 1))
      by (apply Z.pow_le_mono_r; lia).
    lia.
  - symmetry. apply Z.compare_gt_iff.
    assert (2 ^ Zpos (digits2_pos q) <= 2 ^ (Zpos (digits2_pos p) - 1))
      by (apply Z.pow_le_mono_r; lia).
    lia.
Qed.

Lemma compare_of_Z (a b : Z) :
  0 <= a < 2 ^ 53 -> 0 <= b < 2 ^ 53 ->
  SFcompare (of_Z a) (of_Z b) = Some (a ?= b).
Proof.
  intros Ha Hb.
  destruct a as [|p|p], b as [|q|q]; try lia.
  - reflexivity.
  - rewrite (of_Z_pos q) by (apply digits_small; lia). reflexivity.
  - rewrite (of_Z_pos p) by (apply digits_small; lia). reflexivity.
  - apply compare_of_Z_pos; lia.
Qed.

Lemma shiftl_aligned (p : positive) :
  Zpos (digits2_pos p) <= 53 ->
  Z.shiftl (Zpos (aligned p)) (Zpos (digits2_pos p) - 53) = Zpos p.
Proof.
  intros Hd.
  rewrite (aligned_value p Hd).
  replace (Zpos (digits2_pos p) - 53) with (- (53 - Zpos (digits2_pos p))) by lia.
  rewrite Z.shiftl_opp_r.
  rewrite Z.shiftr_div_pow2 by lia.
  apply Z.div_mul.
  apply Z.pow_nonzero; lia.
Qed.

Lemma toInteger_of_Z (a : Z) :
  0 <= a < 2 ^ 53 -> ToIntegerOrInfinity (of_Z a) = Integer a.
Proof.
  intros Ha. destruct a as [|p|p]; try lia; [reflexivity |].
  assert (Zpos (digits2_pos p) <= 53) as Hd by (apply digits_small; lia).
  rewrite (of_Z_pos p Hd). unfold ToIntegerOrInfinity.
  now rewrite (shiftl_aligned p Hd).
Qed.

Lemma isNaN_of_Z (a : Z) : -(2 ^ 53) < a < 2 ^ 53 -> isNaN (of_Z a) = false.
Proof.
  intros Ha. destruct a as [|p|p]; [reflexivity | |].
  - rewrite of_Z_pos by (apply digits_small; lia). reflexivity.
  - rewrite of_Z_neg by (apply digits_small; lia). reflexivity.
Qed.

(** An integer of more than 53 bits rounds to a number with a positive
    exponent, or overflows. *)
Lemma binary_round_large (s : bool) (p : positive) :
  53 < Zpos (digits2_pos p) ->
  (exists m e, binary_round prec emax s p 0 = S754_finite s m e /\ 1 <= e)
  \/ binary_round prec emax s p 0 = S754_infinity s.
Proof.
  intros Hd.
  pose proof (digits2_pos_bounds p) as [Hlo Hhi].
  unfold binary_round.
  assert (fexp prec emax (Zpos (digits2_pos p) + 0)
          = Zpos (digits2_pos p) - 53) as Hf
      by (unfold fexp, emin, prec, emax; lia).
  rewrite Hf.
  assert (shl_align p 0 (Zpos (digits2_pos p) - 53) = (p, 0)) as ->.
  { unfold shl_align.
    destruct (Zpos (digits2_pos p) - 53 - 0) eqn:E; try lia; reflexivity. }
  unfold binary_round_aux.
  destruct (shr_fexp_m (Zpos p) 0 loc_Exact ltac:(lia)) as [E1 M1].
  cbn [Zdigits2] in E1, M1. rewrite Hf in E1, M1.
  replace (0 <? Zpos (digits2_pos p) - 53 - 0) with true in E1, M1
    by (symmetry; apply Z.ltb_lt; lia).
  rewrite E1.
  set (mrs' := fst (shr_fexp prec emax (Zpos p) 0 loc_Exact)) in *.
  set (e' := 0 + (Zpos (digits2_pos p) - 53 - 0)) in *.
  assert (1 <= e') as He' by (subst e'; lia).
  assert (0 < shr_m mrs') as H1.
  { rewrite M1. apply Z.div_str_pos. split; [apply Z.pow_pos_nonneg; lia |].
    transitivity (2 ^ (Zpos (digits2_pos p) - 1)); [| assumption].
    apply Z.pow_le_mono_r; lia. }
  pose proof (round_nearest_even_bounds (shr_m mrs') (loc_of_shr_record mrs'))
    as Hr.
  set (m2 := round_nearest_even _ _) in *.
  destruct m2 as [|q|q] eqn:Em2; try lia.
  destruct (shr_fexp_m (Zpos q) e' loc_Exact ltac:(lia)) as [E2 M2].
  cbn [Zdigits2] in E2, M2.
  pose proof (digits2_pos_bounds q) as [Hqlo Hqhi].
  assert (fexp prec emax (Zpos (digits2_pos q) + e') - e'
          = Zpos (digits2_pos q) - 53) as Hf2
      by (unfold fexp, emin, prec, emax; lia).
  rewrite Hf2 in E2, M2.
  rewrite E2.
  set (mrs'' := fst (shr_fexp prec emax (Zpos q) e' loc_Exact)) in *.
  set (e'' := if 0 <? Zpos (digits2_pos q) - 53 then _ else e') in *.
  assert (1 <= e'') as He''
      by (subst e''; destruct (Z.ltb_spec 0 (Zpos (digits2_pos q) - 53)); lia).
  assert (0 < shr_m mrs'') as H3.
  { rewrite M2. destruct (Z.ltb_spec 0 (Zpos (digits2_pos q) - 53)); [| lia].
    apply Z.div_str_pos. split; [apply Z.pow_pos_nonneg; lia |].
    transitivity (2 ^ (Zpos (digits2_pos q) - 1)); [| assumption].
    apply Z.pow_le_mono_r; lia. }
  destruct (shr_m mrs'') as [|m|m]; try lia.
  destruct (e'' <=? emax - prec); [left; eauto | now right].
Qed.

(** A negative integer is a negative number, however large. *)
Lemma of_Z_negative (p : positive) :
  JsNumber.lt (of_Z (Zneg p)) zero = true.
Proof.
  destruct (Z.le_gt_cases (Zpos (digits2_pos p)) 53) as [Hd|Hd].
  - now rewrite (of_Z_neg p Hd).
  - unfold of_Z. cbn [binary_normalize].
    destruct (binary_round_large true p ltac:(lia)) as [[m [e [-> _]]]| ->];
      reflexivity.
Qed.

(** An integer at or above a length below [2^53] is a number at or
    above it, however large. *)
Lemma of_Z_at_least (len i : Z) :
  0 <= len < 2 ^ 53 -> len <= i ->
  isNaN (of_Z i) = false
  /\ JsNumber.lt (of_Z i) zero = false
  /\ JsNumber.ge (of_Z i) (of_Z len) = true.
Proof.
  intros Hlen Hi.
  destruct (Z.lt_ge_cases i (2 ^ 53)) as [Hsmall|Hbig].
  - rewrite isNaN_of_Z by lia.
    unfold JsNumber.lt, JsNumber.ge, SFltb, SFleb.
    change zero with (of_Z 0).
    rewrite !compare_of_Z by lia.
    destruct (Z.compare_spec i 0); try lia;
      destruct (Z.compare_spec len i); try lia; repeat split.
  - destruct i as [|q|q]; try lia.
    assert (53 < Zpos (digits2_pos q)) as Hd.
    { pose proof (digits2_pos_bounds q) as [_ Hhi].
      destruct (Z.le_gt_cases (Zpos (digits2_pos q)) 53) as [Hle|]; [| lia].
      assert (2 ^ Zpos (digits2_pos q) <= 2 ^ 53)
        by (apply Z.pow_le_mono_r; lia).
      lia. }
    unfold of_Z at 1 2 3. cbn [binary_normalize].
    destruct (binary_round_large false q Hd) as [[m [e [-> He]]]| ->].
    + split; [reflexivity |]. split; [reflexivity |].
      unfold JsNumber.ge, SFleb.
      destruct len as [|p|p]; try lia; [reflexivity |].
      rewrite (of_Z_pos p) by (apply digits_small; lia).
      cbn [SFcompare].
      assert (Zpos (digits2_pos p) <= 53) by (apply digits_small; lia).
      destruct (Z.compare_spec (Zpos (digits2_pos p) - 53) e);
        reflexivity || lia.
    + repeat split.
      unfold JsNumber.ge, SFleb.
      destruct len as [|p|p]; try lia; [reflexivity |].
      rewrite (of_Z_pos p) by (apply digits_small; lia).
      reflexivity.
Qed.

(** ** Deleting bookmarks *)

Section DeleteFacts.

Variable saveBookmarks : list value -> Exc unit.
Variable now : string.

Local Abbreviation delete := (deleteBookmark saveBookmarks).
Local Abbreviation post := (postBookmark saveBookmarks now).

Lemma delete_at (bookmarks : list value) (param : string) (i : nat) :
  parseInt param = of_Z (Z.of_nat i) ->
  (i < List.length bookmarks)%nat ->
  Z.of_nat (List.length bookmarks) < 2 ^ 53 ->
  delete bookmarks param
  = (match saveBookmarks (firstn i bookmarks ++ skipn (S i) bookmarks) with
     | Ok _ => json [("message", VString "Bookmark deleted")]
     | Throw error => serverError error
     end,
     (firstn i bookmarks ++ skipn (S i) bookmarks)%list).
Proof.
  intros Hparse Hi Hlen.
  unfold deleteBookmark. rewrite Hparse.
  rewrite isNaN_of_Z by lia.
  unfold JsNumber.lt, JsNumber.ge, SFltb, SFleb.
  change zero with (of_Z 0).
  rewrite !compare_of_Z by lia.
  destruct (Z.compare_spec (Z.of_nat i) 0) as [E|E|E]; try lia;
    destruct (Z.compare_spec (Z.of_nat (List.length bookmarks)) (Z.of_nat i))
      as [E'|E'|E']; try lia; cbn [orb].
  all: assert (splice1 bookmarks (of_Z (Z.of_nat i))
               = (firstn i bookmarks ++ skipn (S i) bookmarks)%list) as ->
         by (unfold splice1; rewrite toInteger_of_Z by lia;
             destruct (Z.ltb_spec (Z.of_nat i) 0); [lia |];
             rewrite Z.min_l by lia; rewrite Nat2Z.id, Nat.add_1_r;
             reflexivity).
  all: destruct (saveBookmarks _); reflexivity.
Qed.

(** X23.  [DELETE] with an index below the number of bookmarks removes
    the bookmark at that index and no other: the bookmarks before it and
    after it stay, in their order. *)
Theorem delete_removes_indexed (bookmarks : list value) (param : string)
    (i : nat) :
  parseInt param = of_Z (Z.of_nat i) ->
  (i < List.length bookmarks)%nat ->
  Z.of_nat (List.length bookmarks) < 2 ^ 53 ->
  saveBookmarks (firstn i bookmarks ++ skipn (S i) bookmarks) = Ok tt ->
  delete bookmarks param
  = (json [("message", VString "Bookmark deleted")],
     (firstn i bookmarks ++ skipn (S i) bookmarks)%list)
  /\ S (List.length (snd (delete bookmarks param))) = List.length bookmarks.
Proof.
  intros Hparse Hi Hlen Hsave.
  rewrite (delete_at _ _ _ Hparse Hi Hlen), Hsave.
  split; [reflexivity |].
  cbn [snd]. rewrite length_app, length_firstn, length_skipn. lia.
Qed.

(** X24.  [DELETE] refuses an index that is not a number, is a
    negative integer, or is an integer not below the number of
    bookmarks, of whatever size (an integer too large for a number
    reads as infinity): it answers 400 "Invalid bookmark index", leaves
    the bookmarks as they are and writes nothing. *)
Theorem delete_rejects_bad_index (bookmarks : list value) (param : string) :
  Z.of_nat (List.length bookmarks) < 2 ^ 53 ->
  isNaN (parseInt param) = true
  \/ (exists k, 0 < k /\ parseInt param = of_Z (- k))
  \/ (exists i, Z.of_nat (List.length bookmarks) <= i
                /\ parseInt param = of_Z i) ->
  delete bookmarks param
  = (jsonError 400 "Invalid bookmark index", bookmarks).
Proof.
  intros Hlen [Hnan | [[k [Hk Hparse]] | [i [Hi Hparse]]]];
    unfold deleteBookmark.
  - now rewrite Hnan.
  - rewrite Hparse.
    destruct k as [|p|p]; try lia. cbn [Z.opp].
    rewrite of_Z_negative. now rewrite Bool.orb_true_r.
  - rewrite Hparse.
    destruct (of_Z_at_least (Z.of_nat (List.length bookmarks)) i
                ltac:(lia) Hi) as [-> [-> ->]].
    reflexivity.
Qed.

(** X25.  Deleting the bookmark that a [POST] has just appended gives
    back the array as it was before the [POST]. *)
Theorem post_then_delete_restores (bookmarks : list value) (body : Exc value)
    (param : string) :
  snd (post bookmarks body) <> bookmarks ->
  parseInt param = of_Z (Z.of_nat (List.length bookmarks)) ->
  Z.of_nat (List.length bookmarks) + 1 < 2 ^ 53 ->
  snd (delete (snd (post bookmarks body)) param) = bookmarks.
Proof.
  intros Hchanged Hparse Hlen.
  destruct (post_changes saveBookmarks now bookmarks body)
    as [H | [b [path [named [_ [_ [_ [_ Hpushed]]]]]]]]; [contradiction |].
  rewrite Hpushed.
  rewrite (delete_at _ _ _ Hparse).
  - cbn [snd].
    rewrite firstn_app, Nat.sub_diag, firstn_all. cbn [firstn].
    rewrite app_nil_r.
    rewrite skipn_all2 by (rewrite length_app; simpl; lia).
    apply app_nil_r.
  - rewrite length_app. simpl. lia.
  - rewrite length_app. simpl. lia.
Qed.

End DeleteFacts.

(** ** Scanning directories *)

Section ScanFacts.

Variable env : Env.
Variable readdir : string -> Exc (list Dirent).
Variable join : string -> string -> string.

Local Abbreviation find := (findMdbFiles env readdir join).
Local Abbreviation step := (scanEntry join).

Lemma fold_scan_none (recurse : string -> ScanState -> option ScanState)
    (dir : string) (entries : list Dirent) :
  fold_left (step recurse dir) entries None = None.
Proof. induction entries; simpl; auto. Qed.

(** A property of the scan of every sub-directory carries over to the
    loop over the entries. *)
Lemma fold_scan_invariant (R : ScanState -> ScanState -> Prop)
    (recurse : string -> ScanState -> option ScanState) (dir : string) :
  (forall s, R s s) ->
  (forall s t u, R s t -> R t u -> R s u) ->
  (forall found log name,
     StringOps.endsWith ".mdb" name = true ->
     R (found, log) ((found ++ [mkScanned dir name])%list, log)) ->
  (forall sub s t, recurse sub s = Some t -> R s t) ->
  forall entries s t,
    fold_left (step recurse dir) entries (Some s) = Some t -> R s t.
Proof.
  intros Hrefl Htrans Hpush Hrec.
  induction entries as [|entry entries IH]; intros s t; simpl.
  - intros [= <-]. apply Hrefl.
  - destruct s as [found log].
    destruct (dirent_isDirectory entry).
    + destruct (recurse (join dir (dirent_name entry)) (found, log))
        as [s'|] eqn:Hsub.
      * intros H. eapply Htrans; [exact (Hrec _ _ _ Hsub) | exact (IH _ _ H)].
      * now rewrite fold_scan_none.
    + destruct (StringOps.endsWith ".mdb" (dirent_name entry)) eqn:Hmdb.
      * intros H. eapply Htrans; [apply (Hpush _ _ _ Hmdb) | exact (IH _ _ H)].
      * apply IH.
Qed.

Lemma grows_refl (s : ScanState) : grows s s.
Proof. exists []. split; [now rewrite app_nil_r | constructor]. Qed.

Lemma grows_trans (s t u : ScanState) : grows s t -> grows t u -> grows s u.
Proof.
  intros [n1 [H1 F1]] [n2 [H2 F2]].
  exists (n1 ++ n2)%list. split.
  - now rewrite H2, H1, app_assoc.
  - apply Forall_app. now split.
Qed.

Lemma scan_grows (fuel : nat) (dir : string) (s t : ScanState) :
  find fuel dir s = Some t -> grows s t.
Proof.
  revert dir s t.
  induction fuel as [|fuel IH]; intros dir s t; simpl; [discriminate |].
  destruct (readdir (expandPath env dir)) as [entries|e].
  - apply fold_scan_invariant.
    + apply grows_refl.
    + apply grows_trans.
    + intros found log name Hmdb.
      exists [mkScanned (expandPath env dir) name]. split; [reflexivity |].
      repeat constructor. exact Hmdb.
    + intros sub. apply IH.
  - intros [= <-]. exists []. split; [simpl; now rewrite app_nil_r |].
    constructor.
Qed.

(** X26.  Whatever the directory tree holds, a scan only ever adds files
    whose names end in [.mdb] (in small letters) to what was found
    before, and drops nothing of it. *)
Theorem scan_finds_only_mdb (fuel : nat) (dir : string)
    (found found' : list Scanned) (log log' : list ScanEvent) :
  find fuel dir (found, log) = Some (found', log') ->
  exists new,
    found' = (found ++ new)%list
    /\ Forall (fun s => StringOps.endsWith ".mdb" (scanned_name s) = true)
         new.
Proof.
  intros H.
  destruct (scan_grows _ _ _ _ H) as [new [Hnew Hall]].
  exists new. split; [exact Hnew | exact Hall].
Qed.

Lemma fold_scan_mono (f g : string -> ScanState -> option ScanState)
    (dir : string) :
  (forall sub s t, f sub s = Some t -> g sub s = Some t) ->
  forall entries s t,
    fold_left (step f dir) entries s = Some t ->
    fold_left (step g dir) entries s = Some t.
Proof.
  intros Hfg.
  induction entries as [|entry entries IH]; intros s t; simpl; [auto |].
  destruct s as [[found log]|]; [| now rewrite fold_scan_none].
  simpl. destruct (dirent_isDirectory entry); [| apply IH].
  destruct (f (join dir (dirent_name entry)) (found, log)) as [s'|] eqn:Hf.
  - rewrite (Hfg _ _ _ Hf). apply IH.
  - now rewrite fold_scan_none.
Qed.

(** More fuel does not change the result of a scan. *)
Lemma scan_mono (fuel : nat) :
  forall fuel' dir s t,
    (fuel <= fuel')%nat -> find fuel dir s = Some t -> find fuel' dir s = Some t.
Proof.
  induction fuel as [|fuel IH]; intros fuel' dir s t Hle; simpl;
    [discriminate |].
  destruct fuel' as [|fuel']; [lia |]. simpl.
  destruct (readdir (expandPath env dir)) as [entries|e]; [| auto].
  apply fold_scan_mono. intros sub s' t'. apply IH. lia.
Qed.

Section Depth.

(** The directory tree is finite: every readable directory is deeper
    than its sub-directories. *)
Variable depth : string -> nat.
Hypothesis depth_decreases : forall dir entries entry,
  readdir (expandPath env dir) = Ok entries ->
  In entry entries ->
  dirent_isDirectory entry = true ->
  (depth (join (expandPath env dir) (dirent_name entry)) < depth dir)%nat.

Lemma scan_returns (fuel : nat) :
  forall dir s, (depth dir < fuel)%nat -> exists t, find fuel dir s = Some t.
Proof.
  induction fuel as [|fuel IH]; intros dir s Hfuel; [lia |]. simpl.
  destruct (readdir (expandPath env dir)) as [entries|e] eqn:Hread;
    [| eauto].
  assert (forall entry, In entry entries ->
            dirent_isDirectory entry = true ->
            (depth (join (expandPath env dir) (dirent_name entry)) < fuel)%nat)
    as Hsub.
  { intros entry Hin Hdir.
    pose proof (depth_decreases dir entries entry Hread Hin Hdir). lia. }
  clear Hread. revert s.
  induction entries as [|entry entries IHe]; intros s; simpl; [eauto |].
  destruct s as [found log].
  destruct (dirent_isDirectory entry) eqn:Hdir.
  - destruct (IH (join (expandPath env dir) (dirent_name entry)) (found, log))
      as [t Ht]; [apply Hsub; [now left | assumption] |].
    rewrite Ht. apply IHe. intros e' Hin. apply Hsub. now right.
  - destruct (StringOps.endsWith ".mdb" (dirent_name entry));
      apply IHe; intros e' Hin; apply Hsub; now right.
Qed.

(** X27.  On a finite directory tree the scan of a directory returns:
    with fuel beyond the depth of the tree it gives a result, the same
    for every such amount of fuel, and a directory or sub-directory that
    cannot be read does not stop it. *)
Theorem scan_terminates (dir : string) (s : ScanState) :
  exists t, forall fuel, (depth dir < fuel)%nat -> find fuel dir s = Some t.
Proof.
  destruct (scan_returns (S (depth dir)) dir s) as [t Ht]; [lia |].
  exists t. intros fuel Hfuel.
  apply (scan_mono (S (depth dir))); [lia | exact Ht].
Qed.

Lemma findFrom_returns (dir : value) (log : list ScanEvent) :
  stringifies dir = true ->
  exists found log',
    (forall fuel, (depthOf depth dir < fuel)%nat ->
       findFrom env readdir join fuel dir log = Some (Ok found, log'))
    /\ Forall isMdb found.
Proof.
  intros Hdir.
  destruct dir;
    try (unfold findFrom, StringOf; rewrite Hdir;
         do 2 eexists; split; [reflexivity | constructor]).
  destruct (scan_returns (S (depth s)) s ([], log)) as [[found log'] Ht];
    [lia |].
  exists found, log'. split.
  - intros fuel Hfuel. simpl.
    now rewrite (scan_mono (S (depth s)) fuel s _ _ ltac:(simpl in Hfuel; lia) Ht).
  - destruct (scan_grows _ _ _ _ Ht) as [new [Hnew Hall]].
    simpl in Hnew. now rewrite Hnew.
Qed.

Lemma scanAll_returns (directories : list value) :
  Forall (fun dir => stringifies dir = true) directories ->
  forall found log,
    Forall isMdb found ->
    exists found' log',
      (forall fuel, (list_max (List.map (depthOf depth) directories) < fuel)%nat ->
         scanAll env readdir join fuel directories (found, log)
         = Some (Ok found', log'))
      /\ Forall isMdb found'.
Proof.
  induction 1 as [|dir directories Hdir Hrest IH]; intros found log Hfound;
    simpl.
  - do 2 eexists. split; [reflexivity | assumption].
  - unfold StringOf. rewrite Hdir.
    destruct (findFrom_returns dir (log ++ [ScanStart (ToString dir)]) Hdir)
      as [results [log' [Hfind Hres]]].
    destruct (IH (found ++ results)%list
                (log' ++ [ScanDone (List.length results) (ToString dir)])%list)
      as [found' [log'' [Hscan Ht]]].
    { apply Forall_app. now split. }
    exists found', log''. split; [| exact Ht].
    intros fuel Hfuel.
    rewrite Hfind by lia. apply Hscan. lia.
Qed.

(** X28.  On a finite directory tree the scan route answers with status
    200 every posted array whose elements can be converted to text,
    whatever else the array holds: directories that do not exist or
    cannot be read, and elements that are not strings, only leave a line
    on the console.  Every database it reports is a file whose name ends
    in [.mdb]. *)
Theorem scan_route_answers (b : value) (directories : list value) :
  get b "directories" = Ok (VArray directories) ->
  Forall (fun dir => stringifies dir = true) directories ->
  exists found log,
    (forall fuel,
       (list_max (List.map (depthOf depth) directories) < fuel)%nat ->
       scanDirectories env readdir join fuel (Ok b)
       = Some (json [("databases", VArray (List.map scannedValue found))],
               log))
    /\ Forall isMdb found.
Proof.
  intros Hget Hall.
  destruct (scanAll_returns directories Hall [] [] (Forall_nil _))
    as [found [log [Hscan Hmdb]]].
  exists found, log. split; [| exact Hmdb].
  intros fuel Hfuel.
  unfold scanDirectories. simpl. rewrite Hget.
  now rewrite (Hscan fuel Hfuel).
Qed.

(** X29.  An element that cannot be converted to text, an object with
    a field of its own named [toString], stops the scan at the console
    line that names it: the route answers with status 500 and the text
    of a [TypeError], and what the directories before it held is not
    reported. *)
Theorem scan_route_crashes (b bad : value) (before after : list value) :
  get b "directories" = Ok (VArray (before ++ bad :: after)) ->
  Forall (fun dir => stringifies dir = true) before ->
  stringifies bad = false ->
  exists error log,
    err_name error = "TypeError"
    /\ forall fuel,
         (list_max (List.map (depthOf depth) before) < fuel)%nat ->
         scanDirectories env readdir join fuel (Ok b)
         = Some (jsonError 500 (error_toString error), log).
Proof.
  intros Hget Hall Hbad.
  assert (forall found log,
            exists log',
              forall fuel,
                (list_max (List.map (depthOf depth) before) < fuel)%nat ->
                scanAll env readdir join fuel (before ++ bad :: after)
                  (found, log)
                = Some (Throw (TypeError
                                 "Cannot convert object to primitive value"),
                        log')) as Hscan.
  { clear Hget. induction Hall as [|dir before Hdir Hrest IH];
      intros found log; simpl.
    - exists log. intros fuel _. unfold StringOf. now rewrite Hbad.
    - unfold StringOf at 1. rewrite Hdir.
      destruct (findFrom_returns dir (log ++ [ScanStart (ToString dir)]) Hdir)
        as [results [log' [Hfind _]]].
      destruct (IH (found ++ results)%list
                  (log' ++ [ScanDone (List.length results) (ToString dir)])%list)
        as [log'' Hcrash].
      exists log''. intros fuel Hfuel.
      rewrite Hfind by lia. apply Hcrash. lia. }
  destruct (Hscan [] []) as [log Hcrash].
  do 2 eexists. split; [| intros fuel Hfuel;
    unfold scanDirectories; simpl; rewrite Hget;
    rewrite (Hcrash fuel Hfuel); reflexivity].
  reflexivity.
Qed.

End Depth.

End ScanFacts.

Lemma example_depth_decreases (dir : string) (entries : list Dirent)
    (entry : Dirent) :
  ExampleScan.readdir (expandPath ExampleScan.env dir) = Ok entries ->
  In entry entries ->
  dirent_isDirectory entry = true ->
  (ExampleScan.depth
     (ExampleScan.join (expandPath ExampleScan.env dir) (dirent_name entry))
   < ExampleScan.depth dir)%nat.
Proof.
  unfold ExampleScan.readdir.
  destruct (String.eqb_spec (expandPath ExampleScan.env dir) "/home/ada")
    as [E|_].
  - intros [= <-] Hin Hdir. rewrite E.
    assert (ExampleScan.depth dir = 1%nat) as ->.
    { destruct (String.eqb_spec dir "~") as [->|Hne]; [reflexivity |].
      destruct (StringOps.startsWith "~/" dir) eqn:Hstart.
      - destruct (prefix_tilde_slash dir Hstart) as [rest ->].
        rewrite (expandPath_tilde_slash ExampleScan.env rest eq_refl) in E.
        simpl in E. discriminate.
      - rewrite (expandPath_other _ _ Hne Hstart) in E. now subst. }
    simpl in Hin.
    destruct Hin as [<-|[<-|[<-|[<-|[]]]]]; simpl in Hdir;
      try discriminate;
      unfold ExampleScan.depth, ExampleScan.join; simpl; lia.
  - destruct (String.eqb_spec (expandPath ExampleScan.env dir)
                "/home/ada/work") as [_|_]; [| discriminate].
    intros [= <-] Hin Hdir. simpl in Hin.
    destruct Hin as [<-|[<-|[]]]; simpl in Hdir; discriminate.
Qed.

Lemma scan_finds_only_mdb_witness :
  exists new,
    [mkScanned "/home/ada" "data.mdb"; mkScanned "/home/ada/work" "lock.mdb"]
    = ([] ++ new)%list
    /\ Forall (fun s => StringOps.endsWith ".mdb" (scanned_name s) = true)
         new.
Proof.
  apply (scan_finds_only_mdb ExampleScan.env ExampleScan.readdir
           ExampleScan.join 2 "~" []
           [mkScanned "/home/ada" "data.mdb";
            mkScanned "/home/ada/work" "lock.mdb"]
           []
           [ScanFailed "/home/ada/private" ExampleScan.denied]).
  reflexivity.
Defined.

Lemma scan_terminates_witness :
  exists t, forall fuel,
    (ExampleScan.depth "~" < fuel)%nat ->
    findMdbFiles ExampleScan.env ExampleScan.readdir ExampleScan.join fuel
      "~" ([], []) = Some t.
Proof.
  apply (scan_terminates ExampleScan.env ExampleScan.readdir
           ExampleScan.join ExampleScan.depth example_depth_decreases).
Defined.

Lemma scan_route_answers_witness :
  let directories := [VString "~"; VNumber zero; VString "/nowhere"] in
  exists found log,
    (forall fuel,
       (list_max (List.map (depthOf ExampleScan.depth) directories) < fuel)%nat ->
       scanDirectories ExampleScan.env ExampleScan.readdir ExampleScan.join
         fuel (Ok (VObject [("directories", VArray directories)]))
       = Some (json [("databases", VArray (List.map scannedValue found))],
               log))
    /\ Forall isMdb found.
Proof.
  apply (scan_route_answers ExampleScan.env ExampleScan.readdir
           ExampleScan.join ExampleScan.depth example_depth_decreases
           (VObject [("directories",
                      VArray [VString "~"; VNumber zero;
                              VString "/nowhere"])])).
  - reflexivity.
  - repeat constructor.
Defined.

Lemma scan_route_crashes_witness :
  let bad := VObject [("toString", VNumber (of_Z 1))] in
  exists error log,
    err_name error = "TypeError"
    /\ forall fuel,
         (list_max (List.map (depthOf ExampleScan.depth) [VString "~"]) < fuel)%nat ->
         scanDirectories ExampleScan.env ExampleScan.readdir ExampleScan.join
           fuel (Ok (VObject [("directories",
                               VArray [VString "~"; bad; VString "/nowhere"])]))
         = Some (jsonError 500 (error_toString error), log).
Proof.
  apply (scan_route_crashes ExampleScan.env ExampleScan.readdir
           ExampleScan.join ExampleScan.depth example_depth_decreases
           (VObject [("directories",
                      VArray [VString "~";
                              VObject [("toString", VNumber (of_Z 1))];
                              VString "/nowhere"])])
           (VObject [("toString", VNumber (of_Z 1))])
           [VString "~"] [VString "/nowhere"]).
  - reflexivity.
  - repeat constructor.
  - reflexivity.
Defined.

Lemma delete_removes_indexed_witness :
  deleteBookmark ExampleRecords.saved
    [ExampleRecords.bookmark "shop" "/var/shop";
     ExampleRecords.bookmark "blog" "/var/blog";
     ExampleRecords.bookmark "wiki" "/var/wiki"] "1"
  = (json [("message", VString "Bookmark deleted")],
     [ExampleRecords.bookmark "shop" "/var/shop";
      ExampleRecords.bookmark "wiki" "/var/wiki"])
  /\ S (List.length
          (snd (deleteBookmark ExampleRecords.saved
                  [ExampleRecords.bookmark "shop" "/var/shop";
                   ExampleRecords.bookmark "blog" "/var/blog";
                   ExampleRecords.bookmark "wiki" "/var/wiki"] "1")))
     = 3%nat.
Proof.
  apply (delete_removes_indexed ExampleRecords.saved
           [ExampleRecords.bookmark "shop" "/var/shop";
            ExampleRecords.bookmark "blog" "/var/blog";
            ExampleRecords.bookmark "wiki" "/var/wiki"] "1" 1).
  - reflexivity.
  - simpl. lia.
  - simpl. lia.
  - reflexivity.
Defined.

Lemma delete_rejects_bad_index_witness :
  deleteBookmark ExampleRecords.saved
    [ExampleRecords.bookmark "shop" "/var/shop"] "100000000000000000000"
  = (jsonError 400 "Invalid bookmark index",
     [ExampleRecords.bookmark "shop" "/var/shop"]).
Proof.
  apply (delete_rejects_bad_index ExampleRecords.saved
           [ExampleRecords.bookmark "shop" "/var/shop"]
           "100000000000000000000").
  - simpl. lia.
  - right. right. exists (10 ^ 20). split; [simpl; lia | reflexivity].
Defined.

Lemma post_then_delete_restores_witness :
  snd (deleteBookmark ExampleRecords.saved
         (snd (postBookmark ExampleRecords.saved ExampleRecords.today
                 [ExampleRecords.bookmark "shop" "/var/shop"]
                 (Ok (VObject [("path", VString "/var/blog")])))) "1")
  = [ExampleRecords.bookmark "shop" "/var/shop"].
Proof.
  apply (post_then_delete_restores ExampleRecords.saved ExampleRecords.today
           [ExampleRecords.bookmark "shop" "/var/shop"]
           (Ok (VObject [("path", VString "/var/blog")])) "1").
  - discriminate.
  - reflexivity.
  - simpl. lia.
Defined.
